(** * Warehouse inventory tracker: stock ledger, ownership guard and session tokens

    A shallow embedding of [models.py], [schemas.py] and [main.py].

    - Integers are Python integers: [Z].
    - Instants ([datetime]) and durations ([timedelta]) are whole seconds, as
      the [exp] claim of a token carries them; the clock is an explicit
      argument [now] of every function that reads it.
    - A table is the list of its rows in insertion order; a query
      [filter(...).first()] is [find].
    - A handler takes the store and returns the store after the request
      together with what the client receives. *)

From Stdlib Require Import ZArith List Ascii String Bool Lia.
Import ListNotations.

Open Scope string_scope.
Open Scope Z_scope.

(** ** models.py *)

Module User.
Record t := mk {
  id : Z;
  email : string;
  hashed_password : string;
  full_name : string;
  is_active : bool
}.

Definition with_is_active (b : bool) (u : t) : t :=
  mk (id u) (email u) (hashed_password u) (full_name u) b.
End User.

Module Product.
Record t := mk {
  id : Z;
  name : string;
  description : option string;
  sku : string;
  current_stock : Z;
  min_stock : Z;
  max_stock : Z;
  created_at : Z;
  user_id : Z
}.

Definition with_current_stock (n : Z) (p : t) : t :=
  mk (id p) (name p) (description p) (sku p) n
     (min_stock p) (max_stock p) (created_at p) (user_id p).
End Product.

Module Supply.
Record t := mk {
  id : Z;
  product_id : Z;
  quantity : Z;
  supplier : string;
  supply_date : Z;
  status : string;
  user_id : Z
}.
End Supply.

Module Inventory.
Record t := mk {
  id : Z;
  name : string;
  description : option string;
  status : option string;
  is_successful : option bool;
  comment : option string;
  created_at : Z;
  updated_at : option Z;
  user_id : Z
}.
End Inventory.

(** ** Python strings

    A [str] is carried as its UTF-8 encoding.  [len] counts characters: every
    byte of the encoding that is not a continuation byte (10xxxxxx) starts
    one. *)

Definition is_continuation (c : ascii) : bool :=
  let n := nat_of_ascii c in
  (128 <=? n)%nat && (n <? 192)%nat.

Fixpoint len (s : string) : Z :=
  match s with
  | EmptyString => 0
  | String c rest => (if is_continuation c then 0 else 1) + len rest
  end.

(** [str.lower] on the letters A to Z; a byte of a character outside ASCII is
    left as it is. *)
Definition lower_ascii (c : ascii) : ascii :=
  let n := nat_of_ascii c in
  if (65 <=? n)%nat && (n <=? 90)%nat then ascii_of_nat (n + 32) else c.

Fixpoint lower (s : string) : string :=
  match s with
  | EmptyString => EmptyString
  | String c rest => String (lower_ascii c) (lower rest)
  end.

(** ** schemas.py *)

(** A validator either returns the (possibly normalised) value or raises
    [ValueError] with a message. *)
Inductive validated (A : Type) : Type :=
| Valid (a : A)
| ValueError (msg : string).
Arguments Valid {A} a.
Arguments ValueError {A} msg.

Module UserCreate.
Definition validate_password (v : string) : validated string :=
  if len v <? 6
  then ValueError "Password must be at least 6 characters"
  else if len v >? 72
  then ValueError "Password must be less than 72 characters"
  else Valid v.
End UserCreate.

Module ProductCreate.
(** The fields of [ProductBase]; [ProductCreate] adds none. *)
Record t := mk {
  name : string;
  description : option string;
  sku : string;
  min_stock : Z;
  max_stock : Z
}.

Definition validate_stock_values (v : Z) : validated Z :=
  if v <? 0 then ValueError "Stock values cannot be negative" else Valid v.
End ProductCreate.

Module SupplyCreate.
(** The fields of [SupplyBase]; [SupplyCreate] adds none. *)
Record t := mk {
  product_id : Z;
  quantity : Z;
  supplier : string
}.

Definition validate_quantity (v : Z) : validated Z :=
  if v <=? 0 then ValueError "Quantity must be positive" else Valid v.

(** Construction of the model from a request body: the field validator
    runs, and its [ValueError] is the validation failure of the body. *)
Definition parse (product_id quantity : Z) (supplier : string) : validated t :=
  match validate_quantity quantity with
  | Valid q => Valid (mk product_id q supplier)
  | ValueError msg => ValueError msg
  end.
End SupplyCreate.

Module InventoryCreate.
(** The fields of [InventoryBase]; [InventoryCreate] adds none. *)
Record t := mk {
  name : string;
  description : option string;
  status : option string;
  is_successful : option bool;
  comment : option string
}.
End InventoryCreate.

Module InventoryUpdate.
(** Every field is optional and the handler reads the model with
    [dict(exclude_unset=True)]: a field is either absent from the body
    ([None]) or set, possibly to null ([Some None]). *)
Record t := mk {
  name : option (option string);
  description : option (option string);
  status : option (option string);
  is_successful : option (option bool);
  comment : option (option string)
}.
End InventoryUpdate.

(** ** The store *)

Record DB := mkDB {
  users : list User.t;
  products : list Product.t;
  supplies : list Supply.t;
  inventories : list Inventory.t
}.

Definition empty_db : DB := mkDB [] [] [] [].

Definition with_products (l : list Product.t) (db : DB) : DB :=
  mkDB (users db) l (supplies db) (inventories db).

Definition with_inventories (l : list Inventory.t) (db : DB) : DB :=
  mkDB (users db) (products db) (supplies db) l.

Section Tables.
Context {A : Type} (key : A -> Z).

(** Modelled from the spec: database.py (engine, session factory and
    [get_db]) is not among the sources.  The persistence boundary is a
    transactional session with get-by-id, list-by-owner, add, delete and
    commit; a commit either completes or the store raises and the whole
    unit of work is rolled back.  Primary keys are integers assigned by the
    store on insertion; the model takes one above the largest key present,
    and the proofs use only that this is not a key of the table. *)
Definition next_id (l : list A) : Z :=
  1 + fold_right Z.max 0 (map key l).

(** [db.add(row)] followed by a successful [db.commit()]. *)
Definition add_row (x : A) (l : list A) : list A := l ++ [x].

(** Attribute assignments on a loaded row followed by a successful
    [db.commit()]: the row with the same primary key is rewritten. *)
Definition update_row (x : A) (l : list A) : list A :=
  map (fun y => if key y =? key x then x else y) l.

(** [db.delete(row)] followed by [db.commit()]. *)
Definition delete_row (k : Z) (l : list A) : list A :=
  filter (fun y => negb (key y =? k)) l.
End Tables.

(** [db.query(models.Product).filter(Product.id == product_id,
    Product.user_id == user_id).first()], and the same for the other tables. *)
Definition query_product (db : DB) (product_id user_id : Z) : option Product.t :=
  find (fun p => (Product.id p =? product_id) && (Product.user_id p =? user_id))
       (products db).

Definition query_supply (db : DB) (supply_id user_id : Z) : option Supply.t :=
  find (fun s => (Supply.id s =? supply_id) && (Supply.user_id s =? user_id))
       (supplies db).

Definition query_inventory (db : DB) (inventory_id user_id : Z) : option Inventory.t :=
  find (fun i => (Inventory.id i =? inventory_id) && (Inventory.user_id i =? user_id))
       (inventories db).

(** [db.query(models.Product).filter(Product.sku == sku).first()]. *)
Definition query_product_by_sku (db : DB) (sku : string) : option Product.t :=
  find (fun p => String.eqb (Product.sku p) sku) (products db).

(** [sku] is declared [unique=True]: a commit that would leave two rows with
    the same sku raises [IntegrityError]. *)
Definition sku_taken_by_other (db : DB) (self : Z) (sku : string) : bool :=
  existsb (fun p => negb (Product.id p =? self) && String.eqb (Product.sku p) sku)
          (products db).

(** [db.delete(product)]: the relationship [Product.supplies] cascades
    ("all, delete-orphan"), so the supplies of the product go with it. *)
Definition delete_product_cascade (product_id : Z) (db : DB) : DB :=
  mkDB (users db)
       (delete_row Product.id product_id (products db))
       (filter (fun s => negb (Supply.product_id s =? product_id)) (supplies db))
       (inventories db).

(** ** What a client receives *)

Record HTTPException := mkHTTPException {
  status_code : Z;
  detail : string;
  headers : list (string * string)
}.

(** The result of a JSON handler: a returned value (HTTP 200), a raised
    [HTTPException], a body rejected by the schema (HTTP 422), or an
    exception nobody catches (HTTP 500, plain "Internal Server Error"). *)
Inductive outcome (A : Type) : Type :=
| Return (a : A)
| Raise (e : HTTPException)
| RequestValidationError (msg : string)
| InternalServerError.
Arguments Return {A} a.
Arguments Raise {A} e.
Arguments RequestValidationError {A} msg.
Arguments InternalServerError {A}.

(** [RedirectResponse(url=..., status_code=303)]. *)
Record RedirectResponse := mkRedirect {
  url : string;
  redirect_status : Z
}.

Definition see_other (u : string) : RedirectResponse := mkRedirect u 303.

Definition not_found (what : string) : HTTPException :=
  mkHTTPException 404 what [].

(** ** Credentials and session tokens *)

Definition SECRET_KEY : string := "warehouse-secret-key-2024-course-project".
Definition ALGORITHM : string := "HS256".
Definition ACCESS_TOKEN_EXPIRE_MINUTES : Z := 30.

(** [timedelta(minutes=m)] in seconds. *)
Definition minutes (m : Z) : Z := 60 * m.

(** [pwd_context]: the password hashing scheme is an external collaborator,
    taken as a parameter of the functions that use it. *)
Record CryptContext := mkCryptContext {
  hash : string -> string;
  verify : string -> string -> bool
}.

Definition verify_password (pwd_context : CryptContext)
    (plain_password hashed_password : string) : bool :=
  verify pwd_context plain_password hashed_password.

Definition get_password_hash (pwd_context : CryptContext) (password : string) : string :=
  hash pwd_context password.

Module jwt.
(** The claims the application writes and reads: the dictionary keys ["sub"]
    and ["exp"], each of which may be missing. *)
Record claims := mk {
  sub : option string;
  exp : option Z
}.

(** The token library is external.  A token is modelled symbolically: either
    a string that is not a well-formed signed token, or claims signed with a
    key under an algorithm.  A signature verifies exactly under the key and
    algorithm it was made with. *)
Inductive token : Type :=
| Malformed (raw : string)
| Signed (key algorithm : string) (payload : claims).

Definition encode (payload : claims) (key algorithm : string) : token :=
  Signed key algorithm payload.

(** [decode] raises [JWTError] ([None]) for a malformed token, a signature
    that does not verify, an algorithm that is not allowed, and an expiry
    that lies before the current second. *)
Definition decode (now : Z) (t : token) (key : string) (algorithms : list string)
    : option claims :=
  match t with
  | Malformed _ => None
  | Signed k a payload =>
      if String.eqb k key && existsb (String.eqb a) algorithms
      then match exp payload with
           | Some e => if e <? now then None else Some payload
           | None => Some payload
           end
      else None
  end.
End jwt.

Definition get_user_by_email (db : DB) (email : string) : option User.t :=
  find (fun u => String.eqb (User.email u) email) (users db).

(** Returns the user, or [None] where the source returns [False]. *)
Definition authenticate_user (pwd_context : CryptContext) (db : DB)
    (email password : string) : option User.t :=
  match get_user_by_email db email with
  | None => None
  | Some user =>
      if negb (verify_password pwd_context password (User.hashed_password user))
      then None
      else Some user
  end.

(** [data] is the dictionary of claims to sign; [data["sub"]] raises
    [KeyError] when the key is missing ([None]).  [if expires_delta:] tests
    truthiness: a missing duration and the zero duration both take the
    [else] branch. *)
Definition create_access_token (now : Z) (data : jwt.claims)
    (expires_delta : option Z) : option jwt.token :=
  let expire :=
    match expires_delta with
    | Some d => if d =? 0
                then now + minutes ACCESS_TOKEN_EXPIRE_MINUTES
                else now + d
    | None => now + minutes ACCESS_TOKEN_EXPIRE_MINUTES
    end in
  match jwt.sub data with
  | None => None
  | Some s => Some (jwt.encode (jwt.mk (Some s) (Some expire)) SECRET_KEY ALGORITHM)
  end.

(** The [try] block both resolvers share: decode under the process key and
    read the subject; [None] stands for the failure each resolver then
    reports in its own way. *)
Definition token_subject (now : Z) (token : jwt.token) : option string :=
  match jwt.decode now token SECRET_KEY [ALGORITHM] with
  | None => None
  | Some payload => jwt.sub payload
  end.

Record HTTPAuthorizationCredentials := mkCredentials {
  scheme : string;
  credentials : jwt.token
}.

Definition unauthorized (msg : string) : HTTPException :=
  mkHTTPException 401 msg [].

Definition get_current_user_for_api (now : Z)
    (creds : option HTTPAuthorizationCredentials) (db : DB) : outcome User.t :=
  match creds with
  | None =>
      Raise (mkHTTPException 401 "Not authenticated" [("WWW-Authenticate", "Bearer")])
  | Some c =>
      match token_subject now (credentials c) with
      | None => Raise (unauthorized "Invalid token")
      | Some email =>
          match get_user_by_email db email with
          | None => Raise (unauthorized "User not found")
          | Some user => Return user
          end
      end
  end.

(** [cookie] is [request.cookies.get("access_token")]. *)
Definition get_current_user_for_web (now : Z) (cookie : option jwt.token) (db : DB)
    : option User.t :=
  match cookie with
  | None => None
  | Some token =>
      match token_subject now token with
      | None => None
      | Some email => get_user_by_email db email
      end
  end.

Definition require_auth_for_api (current_user : outcome User.t) : outcome User.t :=
  current_user.

(** The [Authorization] header of a request, split at its first space into a
    scheme and a parameter; [None] for the parameter when nothing follows the
    scheme. *)
Record authorization := mkAuthorization {
  authorization_scheme : string;
  authorization_param : option jwt.token
}.

(** [security_scheme = HTTPBearer()]: the dependency that reads the header
    and hands the credentials to [get_current_user_for_api].  The class is
    the framework's and is constructed with its default [auto_error=True]:
    it answers a request without usable bearer credentials itself, with
    status 403 and no challenge header, and never hands on [None]. *)
Definition security_scheme (header : option authorization)
    : outcome HTTPAuthorizationCredentials :=
  match header with
  | None => Raise (mkHTTPException 403 "Not authenticated" [])
  | Some a =>
      match authorization_param a with
      | None => Raise (mkHTTPException 403 "Not authenticated" [])
      | Some token =>
          if String.eqb (authorization_scheme a) ""
          then Raise (mkHTTPException 403 "Not authenticated" [])
          else if negb (String.eqb (lower (authorization_scheme a)) "bearer")
          then Raise (mkHTTPException 403 "Invalid authentication credentials" [])
          else Return (mkCredentials (authorization_scheme a) token)
      end
  end.

(** What [Depends(require_auth_for_api)] gives a protected JSON endpoint for
    a request with the given [Authorization] header. *)
Definition current_user_of_request (now : Z) (header : option authorization)
    (db : DB) : outcome User.t :=
  match security_scheme header with
  | Return creds =>
      require_auth_for_api (get_current_user_for_api now (Some creds) db)
  | Raise e => Raise e
  | RequestValidationError m => RequestValidationError m
  | InternalServerError => InternalServerError
  end.

Definition require_auth_for_web (current_user : option User.t) : outcome User.t :=
  match current_user with
  | None => Raise (mkHTTPException 303 "" [("Location", "/login-page")])
  | Some u => Return u
  end.

(** [POST /login]: the redirect and, on success, the cookie it sets. *)
Definition login_from_form (pwd_context : CryptContext) (now : Z)
    (email password : string) (db : DB) : RedirectResponse * option jwt.token :=
  match authenticate_user pwd_context db email password with
  | None => (see_other "/login-page?error=Invalid+credentials", None)
  | Some user =>
      (see_other "/?success=Login+successful",
       create_access_token now (jwt.mk (Some (User.email user)) None) None)
  end.

(** [POST /token]: the access token of the JSON body
    [{"access_token": ..., "token_type": "bearer"}]. *)
Definition login_for_access_token (pwd_context : CryptContext) (now : Z)
    (username password : string) (db : DB) : outcome (option jwt.token) :=
  match authenticate_user pwd_context db username password with
  | None =>
      Raise (mkHTTPException 401 "Incorrect username or password"
                             [("WWW-Authenticate", "Bearer")])
  | Some user =>
      Return (create_access_token now (jwt.mk (Some (User.email user)) None) None)
  end.

(** ** JSON handlers

    Each handler receives the body already validated by its schema, the
    store and the resolved [current_user], as the Python function does. *)

Definition message := string.

Definition read_product_api (product_id : Z) (db : DB) (current_user : User.t)
    : outcome Product.t :=
  match query_product db product_id (User.id current_user) with
  | None => Raise (not_found "Product not found")
  | Some product => Return product
  end.

(** No check of the sku precedes the commit here: the unique constraint of
    the column is what rejects a duplicate, and the [IntegrityError] it raises
    is not caught. *)
Definition create_product_api (now : Z) (product : ProductCreate.t) (db : DB)
    (current_user : User.t) : DB * outcome Product.t :=
  let db_product :=
    Product.mk (next_id Product.id (products db))
               (ProductCreate.name product)
               (ProductCreate.description product)
               (ProductCreate.sku product)
               0
               (ProductCreate.min_stock product)
               (ProductCreate.max_stock product)
               now
               (User.id current_user) in
  if sku_taken_by_other db (Product.id db_product) (Product.sku db_product)
  then (db, InternalServerError)
  else (with_products (add_row db_product (products db)) db, Return db_product).

(** [for key, value in product.dict().items(): setattr(db_product, key, value)]
    over the five fields of [ProductCreate]. *)
Definition set_product_fields (product : ProductCreate.t) (db_product : Product.t)
    : Product.t :=
  Product.mk (Product.id db_product)
             (ProductCreate.name product)
             (ProductCreate.description product)
             (ProductCreate.sku product)
             (Product.current_stock db_product)
             (ProductCreate.min_stock product)
             (ProductCreate.max_stock product)
             (Product.created_at db_product)
             (Product.user_id db_product).

Definition update_product_api (product_id : Z) (product : ProductCreate.t) (db : DB)
    (current_user : User.t) : DB * outcome Product.t :=
  match query_product db product_id (User.id current_user) with
  | None => (db, Raise (not_found "Product not found"))
  | Some db_product =>
      let db_product' := set_product_fields product db_product in
      if sku_taken_by_other db (Product.id db_product') (Product.sku db_product')
      then (db, InternalServerError)
      else (with_products (update_row Product.id db_product' (products db)) db,
            Return db_product')
  end.

Definition delete_product_api (product_id : Z) (db : DB) (current_user : User.t)
    : DB * outcome message :=
  match query_product db product_id (User.id current_user) with
  | None => (db, Raise (not_found "Product not found"))
  | Some db_product =>
      (delete_product_cascade (Product.id db_product) db,
       Return "Product deleted successfully")
  end.

(** The supply row and the new stock of its product are written by one
    commit. *)
Definition receive (db_supply : Supply.t) (product : Product.t) (db : DB) : DB :=
  mkDB (users db)
       (update_row Product.id
          (Product.with_current_stock
             (Product.current_stock product + Supply.quantity db_supply) product)
          (products db))
       (add_row db_supply (supplies db))
       (inventories db).

Definition create_supply_api (now : Z) (supply : SupplyCreate.t) (db : DB)
    (current_user : User.t) : DB * outcome Supply.t :=
  match query_product db (SupplyCreate.product_id supply) (User.id current_user) with
  | None => (db, Raise (not_found "Product not found"))
  | Some product =>
      let db_supply :=
        Supply.mk (next_id Supply.id (supplies db))
                  (SupplyCreate.product_id supply)
                  (SupplyCreate.quantity supply)
                  (SupplyCreate.supplier supply)
                  now
                  "received"
                  (User.id current_user) in
      (receive db_supply product db, Return db_supply)
  end.

(** [POST /supplies/] as the client sees it: the body is parsed into
    [SupplyCreate] before the handler runs. *)
Definition post_supplies (now : Z) (product_id quantity : Z) (supplier : string)
    (db : DB) (current_user : User.t) : DB * outcome Supply.t :=
  match SupplyCreate.parse product_id quantity supplier with
  | ValueError msg => (db, RequestValidationError msg)
  | Valid supply => create_supply_api now supply db current_user
  end.

(** The stock of the product, when one is found, and the deletion of the
    supply are written by one commit. *)
Definition retract (supply : Supply.t) (product : option Product.t) (db : DB) : DB :=
  mkDB (users db)
       (match product with
        | Some p =>
            update_row Product.id
              (Product.with_current_stock
                 (Product.current_stock p - Supply.quantity supply) p)
              (products db)
        | None => products db
        end)
       (delete_row Supply.id (Supply.id supply) (supplies db))
       (inventories db).

Definition delete_supply_api (supply_id : Z) (db : DB) (current_user : User.t)
    : DB * outcome message :=
  match query_supply db supply_id (User.id current_user) with
  | None => (db, Raise (not_found "Supply not found"))
  | Some supply =>
      let product :=
        query_product db (Supply.product_id supply) (User.id current_user) in
      (retract supply product db, Return "Supply deleted successfully")
  end.

(** On INSERT a column that has a default takes it also when the attribute
    was set to [None]: a null [status] is stored as "pending", a null
    [is_successful] as [False]. *)
Definition or_default {A : Type} (default : A) (v : option A) : option A :=
  match v with
  | Some a => Some a
  | None => Some default
  end.

Definition create_inventory_api (now : Z) (inventory : InventoryCreate.t) (db : DB)
    (current_user : User.t) : DB * outcome Inventory.t :=
  let db_inventory :=
    Inventory.mk (next_id Inventory.id (inventories db))
                 (InventoryCreate.name inventory)
                 (InventoryCreate.description inventory)
                 (or_default "pending" (InventoryCreate.status inventory))
                 (or_default false (InventoryCreate.is_successful inventory))
                 (InventoryCreate.comment inventory)
                 now
                 None
                 (User.id current_user) in
  (with_inventories (add_row db_inventory (inventories db)) db, Return db_inventory).

(** One field of [update_data]: absent keeps the stored value. *)
Definition setattr_opt {A : Type} (field : option A) (old : A) : A :=
  match field with
  | Some v => v
  | None => old
  end.

(** [name] is declared [nullable=False]: a body that sets it to null makes
    the commit raise [IntegrityError], which is not caught.  No field is
    checked by the handler or by [InventoryUpdate]. *)
Definition update_inventory_api (now : Z) (inventory_id : Z)
    (inventory : InventoryUpdate.t) (db : DB) (current_user : User.t)
    : DB * outcome Inventory.t :=
  match query_inventory db inventory_id (User.id current_user) with
  | None => (db, Raise (not_found "Inventory not found"))
  | Some db_inventory =>
      match setattr_opt (InventoryUpdate.name inventory)
                        (Some (Inventory.name db_inventory)) with
      | None => (db, InternalServerError)
      | Some name' =>
          let db_inventory' :=
            Inventory.mk (Inventory.id db_inventory)
                         name'
                         (setattr_opt (InventoryUpdate.description inventory)
                                      (Inventory.description db_inventory))
                         (setattr_opt (InventoryUpdate.status inventory)
                                      (Inventory.status db_inventory))
                         (setattr_opt (InventoryUpdate.is_successful inventory)
                                      (Inventory.is_successful db_inventory))
                         (setattr_opt (InventoryUpdate.comment inventory)
                                      (Inventory.comment db_inventory))
                         (Inventory.created_at db_inventory)
                         (Some now)
                         (Inventory.user_id db_inventory) in
          (with_inventories (update_row Inventory.id db_inventory' (inventories db)) db,
           Return db_inventory')
      end
  end.

Definition delete_inventory_api (inventory_id : Z) (db : DB) (current_user : User.t)
    : DB * outcome message :=
  match query_inventory db inventory_id (User.id current_user) with
  | None => (db, Raise (not_found "Inventory not found"))
  | Some db_inventory =>
      (with_inventories
         (delete_row Inventory.id (Inventory.id db_inventory) (inventories db)) db,
       Return "Inventory deleted successfully")
  end.

(** ** Form handlers

    Each handler receives the form fields as FastAPI converted them (no
    schema of [schemas.py] is involved), the store and the resolved
    [current_user]; it answers with a redirect. *)

Definition create_product_from_form (now : Z) (name sku : string)
    (description : option string) (min_stock max_stock : Z) (db : DB)
    (current_user : User.t) : DB * RedirectResponse :=
  match query_product_by_sku db sku with
  | Some existing_product =>
      (db, see_other "/products-page?error=SKU+already+exists")
  | None =>
      let db_product :=
        Product.mk (next_id Product.id (products db))
                   name description sku 0 min_stock max_stock now
                   (User.id current_user) in
      (with_products (add_row db_product (products db)) db,
       see_other "/products-page?success=Product+created")
  end.

Definition delete_product_from_form (product_id : Z) (db : DB)
    (current_user : User.t) : DB * RedirectResponse :=
  match query_product db product_id (User.id current_user) with
  | Some product =>
      (delete_product_cascade (Product.id product) db,
       see_other "/products-page?success=Product+deleted")
  | None => (db, see_other "/products-page?error=Product+not+found")
  end.

Definition create_supply_from_form (now : Z) (product_id quantity : Z)
    (supplier : string) (db : DB) (current_user : User.t)
    : DB * RedirectResponse :=
  match query_product db product_id (User.id current_user) with
  | None => (db, see_other "/supplies-page?error=Product+not+found")
  | Some product =>
      let db_supply :=
        Supply.mk (next_id Supply.id (supplies db))
                  product_id quantity supplier now "received"
                  (User.id current_user) in
      (receive db_supply product db,
       see_other "/supplies-page?success=Supply+created")
  end.

Definition delete_supply_from_form (supply_id : Z) (db : DB)
    (current_user : User.t) : DB * RedirectResponse :=
  match query_supply db supply_id (User.id current_user) with
  | None =>
      (db, see_other "/supplies-page?error=Поставка+не+найдена")
  | Some supply =>
      let product :=
        query_product db (Supply.product_id supply) (User.id current_user) in
      (retract supply product db,
       see_other "/supplies-page?success=Поставка+удалена")
  end.

Definition create_inventory_from_form (now : Z) (name : string)
    (description : option string) (db : DB) (current_user : User.t)
    : DB * RedirectResponse :=
  let db_inventory :=
    Inventory.mk (next_id Inventory.id (inventories db))
                 name description (Some "pending") (Some false) None
                 now None (User.id current_user) in
  (with_inventories (add_row db_inventory (inventories db)) db,
   see_other "/inventories-page?success=Инвентаризация+создана").

Definition update_inventory_from_form (now : Z) (inventory_id : Z) (name : string)
    (comment : option string) (is_successful : bool) (db : DB)
    (current_user : User.t) : DB * RedirectResponse :=
  match query_inventory db inventory_id (User.id current_user) with
  | None =>
      (db, see_other "/inventories-page?error=Инвентаризация+не+найдена")
  | Some inventory =>
      let inventory' :=
        Inventory.mk (Inventory.id inventory)
                     name
                     (Inventory.description inventory)
                     (Inventory.status inventory)
                     (Some is_successful)
                     comment
                     (Inventory.created_at inventory)
                     (Some now)
                     (Inventory.user_id inventory) in
      (with_inventories (update_row Inventory.id inventory' (inventories db)) db,
       see_other "/inventories-page?success=Инвентаризация+обновлена")
  end.

Definition valid_statuses : list string := ["pending"; "completed"; "cancelled"].

(** Equality of a stored, nullable status with a given one. *)
Definition status_is (stored : option string) (status : string) : bool :=
  match stored with
  | Some s => String.eqb s status
  | None => false
  end.

(** The handler assigns [status] and commits; it never assigns [updated_at].
    That column carries [onupdate], which stamps it when the commit issues an
    UPDATE for the row: an assignment of the value already stored is no
    change, no UPDATE is issued and the stamp stays as it was. *)
Definition update_inventory_status (now : Z) (inventory_id : Z) (status : string)
    (db : DB) (current_user : User.t) : DB * RedirectResponse :=
  match query_inventory db inventory_id (User.id current_user) with
  | None => (db, see_other "/inventories-page?error=Inventory+not+found")
  | Some inventory =>
      if negb (existsb (String.eqb status) valid_statuses)
      then (db, see_other "/inventories-page?error=Invalid+status")
      else
        let inventory' :=
          Inventory.mk (Inventory.id inventory)
                       (Inventory.name inventory)
                       (Inventory.description inventory)
                       (Some status)
                       (Inventory.is_successful inventory)
                       (Inventory.comment inventory)
                       (Inventory.created_at inventory)
                       (if status_is (Inventory.status inventory) status
                        then Inventory.updated_at inventory
                        else Some now)
                       (Inventory.user_id inventory) in
        (with_inventories (update_row Inventory.id inventory' (inventories db)) db,
         see_other "/inventories-page?success=Status+updated")
  end.

Definition delete_inventory_from_form (inventory_id : Z) (db : DB)
    (current_user : User.t) : DB * RedirectResponse :=
  match query_inventory db inventory_id (User.id current_user) with
  | Some inventory =>
      (with_inventories
         (delete_row Inventory.id (Inventory.id inventory) (inventories db)) db,
       see_other "/inventories-page?success=Inventory+deleted")
  | None => (db, see_other "/inventories-page?error=Inventory+not+found")
  end.

(** ** Requests

    The endpoints that read or write one product, supply or inventory, as one
    request type; [handle] dispatches a request of [current_user] to its
    handler and [run] serves a sequence of requests in order. *)

Inductive body : Type :=
| ProductBody (p : Product.t)
| SupplyBody (s : Supply.t)
| InventoryBody (i : Inventory.t)
| MessageBody (m : message).

Inductive response : Type :=
| JSON (b : outcome body)
| Redirect (r : RedirectResponse).

Definition map_outcome {A B : Type} (f : A -> B) (o : outcome A) : outcome B :=
  match o with
  | Return a => Return (f a)
  | Raise e => Raise e
  | RequestValidationError m => RequestValidationError m
  | InternalServerError => InternalServerError
  end.

Definition json {A : Type} (f : A -> body) (r : DB * outcome A) : DB * response :=
  (fst r, JSON (map_outcome f (snd r))).

Definition page (r : DB * RedirectResponse) : DB * response :=
  (fst r, Redirect (snd r)).

Inductive request : Type :=
| GET_product (product_id : Z)
| POST_products (product : ProductCreate.t)
| PUT_product (product_id : Z) (product : ProductCreate.t)
| DELETE_product (product_id : Z)
| POST_supplies (product_id quantity : Z) (supplier : string)
| DELETE_supply (supply_id : Z)
| POST_inventories (inventory : InventoryCreate.t)
| PUT_inventory (inventory_id : Z) (inventory : InventoryUpdate.t)
| DELETE_inventory (inventory_id : Z)
| POST_products_create (name sku : string) (description : option string)
                       (min_stock max_stock : Z)
| POST_products_delete (product_id : Z)
| POST_supplies_create (product_id quantity : Z) (supplier : string)
| POST_supplies_delete (supply_id : Z)
| POST_inventories_create (name : string) (description : option string)
| POST_inventories_update (inventory_id : Z) (name : string)
                          (comment : option string) (is_successful : bool)
| POST_inventories_update_status (inventory_id : Z) (status : string)
| POST_inventories_delete (inventory_id : Z).

Definition handle (now : Z) (db : DB) (current_user : User.t) (r : request)
    : DB * response :=
  match r with
  | GET_product i =>
      json ProductBody (db, read_product_api i db current_user)
  | POST_products p =>
      json ProductBody (create_product_api now p db current_user)
  | PUT_product i p =>
      json ProductBody (update_product_api i p db current_user)
  | DELETE_product i =>
      json MessageBody (delete_product_api i db current_user)
  | POST_supplies p q s =>
      json SupplyBody (post_supplies now p q s db current_user)
  | DELETE_supply i =>
      json MessageBody (delete_supply_api i db current_user)
  | POST_inventories inv =>
      json InventoryBody (create_inventory_api now inv db current_user)
  | PUT_inventory i inv =>
      json InventoryBody (update_inventory_api now i inv db current_user)
  | DELETE_inventory i =>
      json MessageBody (delete_inventory_api i db current_user)
  | POST_products_create n s d lo hi =>
      page (create_product_from_form now n s d lo hi db current_user)
  | POST_products_delete i =>
      page (delete_product_from_form i db current_user)
  | POST_supplies_create p q s =>
      page (create_supply_from_form now p q s db current_user)
  | POST_supplies_delete i =>
      page (delete_supply_from_form i db current_user)
  | POST_inventories_create n d =>
      page (create_inventory_from_form now n d db current_user)
  | POST_inventories_update i n c ok =>
      page (update_inventory_from_form now i n c ok db current_user)
  | POST_inventories_update_status i s =>
      page (update_inventory_status now i s db current_user)
  | POST_inventories_delete i =>
      page (delete_inventory_from_form i db current_user)
  end.

(** One served request: the instant it is served at, who sends it, and what
    it asks. *)
Record served := mkServed {
  at_time : Z;
  sender : User.t;
  asked : request
}.

Fixpoint run (db : DB) (reqs : list served) : DB :=
  match reqs with
  | [] => db
  | r :: rest => run (fst (handle (at_time r) db (sender r) (asked r))) rest
  end.

(** The ledger: what the supplies on record say the stock of a product is. *)
Fixpoint supplied (product_id : Z) (l : list Supply.t) : Z :=
  match l with
  | [] => 0
  | s :: rest =>
      (if Supply.product_id s =? product_id then Supply.quantity s else 0)
      + supplied product_id rest
  end.

(** Get-by-id, without the ownership filter. *)
Definition get_product (db : DB) (product_id : Z) : option Product.t :=
  find (fun p => Product.id p =? product_id) (products db).

Definition get_supply (db : DB) (supply_id : Z) : option Supply.t :=
  find (fun s => Supply.id s =? supply_id) (supplies db).

Definition get_inventory (db : DB) (inventory_id : Z) : option Inventory.t :=
  find (fun i => Inventory.id i =? inventory_id) (inventories db).

(** What the store guarantees and the handlers maintain: product and supply
    keys are unique, every supply refers to a product on record that has the
    same owner, and the stock of every product is what its supplies add up
    to. *)
Record consistent (db : DB) : Prop := mkConsistent {
  product_keys : NoDup (map Product.id (products db));
  supply_keys : NoDup (map Supply.id (supplies db));
  supply_product :
    forall s, In s (supplies db) ->
      exists p, In p (products db)
                /\ Product.id p = Supply.product_id s
                /\ Product.user_id p = Supply.user_id s;
  stock_ledger :
    forall p, In p (products db) ->
      Product.current_stock p = supplied (Product.id p) (supplies db)
}.

(** Primary keys: no two rows of a table share an id. *)
Record keys_unique (db : DB) : Prop := mkKeysUnique {
  product_pk : NoDup (map Product.id (products db));
  supply_pk : NoDup (map Supply.id (supplies db));
  inventory_pk : NoDup (map Inventory.id (inventories db))
}.

(** The requests that read, update or delete one record chosen by id. *)
Inductive entity : Type := AProduct | ASupply | AnInventory.

Definition target (r : request) : option (entity * Z) :=
  match r with
  | GET_product i => Some (AProduct, i)
  | PUT_product i _ => Some (AProduct, i)
  | DELETE_product i => Some (AProduct, i)
  | DELETE_supply i => Some (ASupply, i)
  | PUT_inventory i _ => Some (AnInventory, i)
  | DELETE_inventory i => Some (AnInventory, i)
  | POST_products_delete i => Some (AProduct, i)
  | POST_supplies_delete i => Some (ASupply, i)
  | POST_inventories_update i _ _ _ => Some (AnInventory, i)
  | POST_inventories_update_status i _ => Some (AnInventory, i)
  | POST_inventories_delete i => Some (AnInventory, i)
  | _ => None
  end.

(** The same request aimed at another id. *)
Definition retarget (j : Z) (r : request) : request :=
  match r with
  | GET_product _ => GET_product j
  | PUT_product _ p => PUT_product j p
  | DELETE_product _ => DELETE_product j
  | DELETE_supply _ => DELETE_supply j
  | PUT_inventory _ u => PUT_inventory j u
  | DELETE_inventory _ => DELETE_inventory j
  | POST_products_delete _ => POST_products_delete j
  | POST_supplies_delete _ => POST_supplies_delete j
  | POST_inventories_update _ n c ok => POST_inventories_update j n c ok
  | POST_inventories_update_status _ s => POST_inventories_update_status j s
  | POST_inventories_delete _ => POST_inventories_delete j
  | other => other
  end.

(** The owner of the record of kind [e] stored under id [i], if there is
    one. *)
Definition owner (db : DB) (e : entity) (i : Z) : option Z :=
  match e with
  | AProduct => option_map Product.user_id (get_product db i)
  | ASupply => option_map Supply.user_id (get_supply db i)
  | AnInventory => option_map Inventory.user_id (get_inventory db i)
  end.

Definition contains (needle hay : string) : bool :=
  match String.index 0 needle hay with
  | Some _ => true
  | None => false
  end.

(** The two shapes a not-found answer takes: status 404 on the JSON surface,
    a 303 redirect carrying an error message on the page surface. *)
Definition is_not_found (r : response) : bool :=
  match r with
  | JSON (Raise e) => status_code e =? 404
  | JSON _ => false
  | Redirect rr => (redirect_status rr =? 303) && contains "?error=" (url rr)
  end.

(** The store with the active flag of every user rewritten by [f]. *)
Definition relabel (f : User.t -> bool) (u : User.t) : User.t :=
  User.with_is_active (f u) u.

Definition reflag (f : User.t -> bool) (db : DB) : DB :=
  mkDB (map (relabel f) (users db)) (products db) (supplies db) (inventories db).

(** The fields of a product no update payload names. *)
Definition untouched (p : Product.t) : Z * Z * Z * Z :=
  (Product.id p, Product.current_stock p, Product.created_at p, Product.user_id p).

(** The owner-filtered query for the record of kind [e] under id [i] finds
    nothing for user [u]. *)
Definition hidden (db : DB) (e : entity) (i u : Z) : Prop :=
  match e with
  | AProduct => query_product db i u = None
  | ASupply => query_supply db i u = None
  | AnInventory => query_inventory db i u = None
  end.

(** The duration a token is issued for: the one given, or 30 minutes when
    none is given. *)
Definition lifetime (expires_delta : option Z) : Z :=
  match expires_delta with
  | Some d => d
  | None => minutes ACCESS_TOKEN_EXPIRE_MINUTES
  end.

(** ** Registration, start-up and listings *)

Definition with_users (l : list User.t) (db : DB) : DB :=
  mkDB l (products db) (supplies db) (inventories db).

(** [POST /register].  The length test precedes every query; [is_active]
    takes its column default.  The handler body sits in a [try] whose
    [except] answers "Registration failed": with a total hash function and
    the email already checked, the commit succeeds and that branch is not
    reached. *)
Definition register_from_form (pwd_context : CryptContext)
    (email password full_name : string) (db : DB) : DB * RedirectResponse :=
  if len password <? 6
  then (db, see_other "/register-page?error=Password+must+be+at+least+6+characters")
  else
    match get_user_by_email db email with
    | Some existing_user =>
        (db, see_other "/register-page?error=Email+already+registered")
    | None =>
        let db_user :=
          User.mk (next_id User.id (users db)) email
                  (get_password_hash pwd_context password) full_name true in
        (with_users (add_row db_user (users db)) db,
         see_other "/login-page?success=Registration+successful")
    end.

(** [startup_event]: an empty user table gets the default account. *)
Definition startup_event (pwd_context : CryptContext) (db : DB) : DB :=
  if Z.of_nat (List.length (users db)) =? 0
  then
    with_users
      (add_row (User.mk (next_id User.id (users db)) "admin@warehouse.com"
                        (get_password_hash pwd_context "admin123")
                        "Administrator" true)
               (users db))
      db
  else db.

(** The rows a user owns, in table order: the query behind every listing,
    [filter(<Model>.user_id == current_user.id)]. *)
Definition own_products (db : DB) (user_id : Z) : list Product.t :=
  filter (fun p => Product.user_id p =? user_id) (products db).

Definition own_supplies (db : DB) (user_id : Z) : list Supply.t :=
  filter (fun s => Supply.user_id s =? user_id) (supplies db).

Definition own_inventories (db : DB) (user_id : Z) : list Inventory.t :=
  filter (fun i => Inventory.user_id i =? user_id) (inventories db).

(** [.offset(skip).limit(limit).all()], for an offset and a limit that are
    not negative (what a negative one does is left to the engine). *)
Definition paginate {A : Type} (skip limit : Z) (l : list A) : list A :=
  firstn (Z.to_nat limit) (skipn (Z.to_nat skip) l).

Definition read_products_api (skip limit : Z) (db : DB) (current_user : User.t)
    : list Product.t :=
  paginate skip limit (own_products db (User.id current_user)).

Definition read_supplies_api (skip limit : Z) (db : DB) (current_user : User.t)
    : list Supply.t :=
  paginate skip limit (own_supplies db (User.id current_user)).

Definition read_inventories_api (skip limit : Z) (db : DB) (current_user : User.t)
    : list Inventory.t :=
  paginate skip limit (own_inventories db (User.id current_user)).

(** The template context of the three pages, without the request. *)
Definition products_page (db : DB) (current_user : User.t) : list Product.t :=
  own_products db (User.id current_user).

Definition supplies_page (db : DB) (current_user : User.t)
    : list Supply.t * list Product.t :=
  (own_supplies db (User.id current_user), own_products db (User.id current_user)).

Definition inventories_page (db : DB) (current_user : User.t) : list Inventory.t :=
  own_inventories db (User.id current_user).

(** [GET /]: the three counters and the user the page is rendered for. *)
Record index_context := mkIndex {
  products_count : Z;
  supplies_count : Z;
  inventories_count : Z;
  index_user : option User.t
}.

Definition read_root (now : Z) (cookie : option jwt.token) (db : DB) : index_context :=
  match get_current_user_for_web now cookie db with
  | Some current_user =>
      mkIndex
        (Z.of_nat (List.length (own_products db (User.id current_user))))
        (Z.of_nat (List.length (own_supplies db (User.id current_user))))
        (Z.of_nat (List.length (own_inventories db (User.id current_user))))
        (Some current_user)
  | None => mkIndex 0 0 0 None
  end.

(** A password hashing scheme verifies what it hashed. *)
Definition verifies_own_hashes (pwd_context : CryptContext) : Prop :=
  forall password, verify pwd_context password (hash pwd_context password) = true.

(** No two stored users share an email, no two stored products a sku. *)
Definition emails_unique (db : DB) : Prop :=
  NoDup (map User.email (users db)).

Definition skus_unique (db : DB) : Prop :=
  NoDup (map Product.sku (products db)).

(** The rows user [v] owns are the same in both stores, table by table. *)
Definition same_rows_of (v : Z) (db after : DB) : Prop :=
  own_products after v = own_products db v
  /\ own_supplies after v = own_supplies db v
  /\ own_inventories after v = own_inventories db v.

(** ** Scenarios

    Small concrete stores and requests, used to exercise the statements
    below. *)

Module Scenario.
Definition alice : User.t :=
  User.mk 1 "alice@example.com" "$2b$12$alice" "Alice" true.

Definition bob : User.t :=
  User.mk 2 "bob@example.com" "$2b$12$bob" "Bob" false.

Definition x1 : ProductCreate.t :=
  ProductCreate.mk "Widget" None "X1" 0 100.

(** Alice creates product X1 and receives 10 from Acme. *)
Definition stocked : DB :=
  run empty_db
      [ mkServed 100 alice (POST_products x1);
        mkServed 110 alice (POST_supplies 1 10 "Acme") ].

(** The whole history: she then receives 5 more through the form and
    retracts the first supply. *)
Definition ledger_requests_from_empty : list served :=
  [ mkServed 100 alice (POST_products x1);
    mkServed 110 alice (POST_supplies 1 10 "Acme");
    mkServed 120 alice (POST_supplies_create 1 5 "Bolt");
    mkServed 130 alice (DELETE_supply 1) ].

Definition widget_after : Product.t :=
  Product.mk 1 "Widget" None "X1" 5 0 100 100 1.

(** Bob's audit, pending. *)
Definition audit : Inventory.t :=
  Inventory.mk 1 "Spring count" None (Some "pending") (Some false) None 90 None 2.

Definition audited : DB :=
  mkDB [alice; bob] (products stocked) (supplies stocked) [audit].

Definition archive : InventoryUpdate.t :=
  InventoryUpdate.mk None None (Some (Some "archived")) None None.

(** A stand-in hashing scheme for the scenarios: it verifies exactly what it
    hashed. *)
Definition marking : CryptContext :=
  mkCryptContext (fun password => "$mark$" ++ password)
                 (fun password hashed => String.eqb hashed ("$mark$" ++ password)).

(** The empty store after start-up. *)
Definition seeded : DB := startup_event marking empty_db.
End Scenario.

(** * Properties *)

(** ** Tables *)

Section TableFacts.
Context {A : Type} (key : A -> Z).

Lemma next_id_above (l : list A) (x : A) :
  In x l -> key x < next_id key l.
Proof.
  unfold next_id. induction l as [|y l IH]; cbn [In map fold_right]; [tauto|].
  intros [->|Hx]; [lia|]. specialize (IH Hx). lia.
Qed.

Lemma next_id_fresh (l : list A) :
  ~ In (next_id key l) (map key l).
Proof.
  rewrite in_map_iff. intros (x & Hk & Hx).
  apply next_id_above in Hx. lia.
Qed.

Lemma in_update_row (x y : A) (l : list A) :
  In y (update_row key x l) ->
  y = x \/ (In y l /\ key y <> key x).
Proof.
  unfold update_row. rewrite in_map_iff. intros (z & Hz & Hin).
  destruct (Z.eqb_spec (key z) (key x)); subst; auto.
Qed.

Lemma in_update_row_image (x y : A) (l : list A) :
  In y l -> In (if key y =? key x then x else y) (update_row key x l).
Proof.
  intros Hy. unfold update_row.
  apply (in_map (fun z => if key z =? key x then x else z)) in Hy. exact Hy.
Qed.

Lemma update_row_keys (x : A) (l : list A) :
  map key (update_row key x l) = map key l.
Proof.
  unfold update_row. rewrite map_map. apply map_ext.
  intros y. destruct (Z.eqb_spec (key y) (key x)); congruence.
Qed.

Lemma in_delete_row (k : Z) (y : A) (l : list A) :
  In y (delete_row key k l) <-> In y l /\ key y <> k.
Proof.
  unfold delete_row. rewrite filter_In, negb_true_iff, Z.eqb_neq. tauto.
Qed.

Lemma NoDup_map_filter (f : A -> bool) (l : list A) :
  NoDup (map key l) -> NoDup (map key (filter f l)).
Proof.
  induction l as [|y l IH]; simpl; [auto|].
  intros H. inversion H as [|? ? Hnot Hnd]; subst.
  destruct (f y); simpl; auto.
  constructor; auto.
  rewrite in_map_iff in *. intros (z & Hz & Hin).
  apply Hnot. exists z. rewrite filter_In in Hin. tauto.
Qed.

Lemma NoDup_add_row (l : list A) (x : A) :
  NoDup (map key l) -> ~ In (key x) (map key l) ->
  NoDup (map key (add_row x l)).
Proof.
  intros Hnd Hx. unfold add_row. rewrite map_app. simpl.
  apply NoDup_app; [exact Hnd| repeat constructor; simpl; tauto|].
  intros k Hk [<-|[]]. auto.
Qed.

(** Looking a key up after rows were rewritten by a key-preserving map. *)
Lemma find_key_map (g : A -> A) (k : Z) (l : list A) :
  (forall y, key (g y) = key y) ->
  find (fun y => key y =? k) (map g l)
  = option_map g (find (fun y => key y =? k) l).
Proof.
  intros Hg. induction l as [|y l IH]; simpl; [reflexivity|].
  rewrite Hg. destruct (key y =? k); simpl; auto.
Qed.

Lemma NoDup_key_inj (x y : A) (l : list A) :
  NoDup (map key l) -> In x l -> In y l -> key x = key y -> x = y.
Proof.
  induction l as [|z l IH]; simpl; [tauto|].
  intros Hnd Hx Hy E. inversion Hnd as [|? ? Hnot Hnd']; subst.
  destruct Hx as [->|Hx], Hy as [->|Hy]; auto.
  - exfalso. apply Hnot. rewrite E. apply in_map. exact Hy.
  - exfalso. apply Hnot. rewrite <- E. apply in_map. exact Hx.
Qed.

(** With unique keys, a row found under a key is the only one there. *)
Lemma find_key_unique (k : Z) (x y : A) (l : list A) :
  NoDup (map key l) ->
  find (fun z => key z =? k) l = Some x ->
  In y l -> key y = k -> y = x.
Proof.
  induction l as [|z l IH]; simpl; [tauto|].
  intros Hnd Hfind Hy Hk. inversion Hnd as [|? ? Hnot Hnd']; subst.
  destruct (Z.eqb_spec (key z) (key y)) as [E|E].
  - injection Hfind as <-. destruct Hy as [->|Hy]; [reflexivity|].
    exfalso. apply Hnot. rewrite E. apply in_map. exact Hy.
  - destruct Hy as [->|Hy]; [congruence|]. apply IH; auto.
Qed.
End TableFacts.

(** ** Queries *)

Lemma query_product_some db i u p :
  query_product db i u = Some p ->
  In p (products db) /\ Product.id p = i /\ Product.user_id p = u.
Proof.
  unfold query_product. intros H. apply find_some in H as [Hin Hp].
  apply andb_prop in Hp as [Hi Hu]. apply Z.eqb_eq in Hi, Hu. auto.
Qed.

Lemma query_supply_some db i u s :
  query_supply db i u = Some s ->
  In s (supplies db) /\ Supply.id s = i /\ Supply.user_id s = u.
Proof.
  unfold query_supply. intros H. apply find_some in H as [Hin Hp].
  apply andb_prop in Hp as [Hi Hu]. apply Z.eqb_eq in Hi, Hu. auto.
Qed.

Lemma query_inventory_some db i u x :
  query_inventory db i u = Some x ->
  In x (inventories db) /\ Inventory.id x = i /\ Inventory.user_id x = u.
Proof.
  unfold query_inventory. intros H. apply find_some in H as [Hin Hp].
  apply andb_prop in Hp as [Hi Hu]. apply Z.eqb_eq in Hi, Hu. auto.
Qed.

Lemma query_product_none db i u p :
  query_product db i u = None ->
  In p (products db) -> Product.id p = i -> Product.user_id p <> u.
Proof.
  unfold query_product. intros H Hin Hi Hu.
  apply (find_none _ _ H) in Hin. simpl in Hin.
  rewrite Hi, Hu, !Z.eqb_refl in Hin. discriminate.
Qed.

(** ** The ledger *)

Lemma supplied_app k l s :
  supplied k (l ++ [s])
  = supplied k l + (if Supply.product_id s =? k then Supply.quantity s else 0).
Proof.
  induction l as [|x l IH]; cbn [supplied app]; [lia|]. rewrite IH. lia.
Qed.

Lemma supplied_none k l :
  (forall s, In s l -> Supply.product_id s <> k) -> supplied k l = 0.
Proof.
  induction l as [|x l IH]; cbn [supplied]; intros H; [reflexivity|].
  rewrite IH by (intros s Hs; apply H; right; exact Hs).
  destruct (Z.eqb_spec (Supply.product_id x) k) as [E|E]; [|lia].
  exfalso. apply (H x); [left; reflexivity | exact E].
Qed.

Lemma supplied_cascade k pid l :
  k <> pid ->
  supplied k (filter (fun s => negb (Supply.product_id s =? pid)) l) = supplied k l.
Proof.
  intros Hk. induction l as [|x l IH]; cbn [supplied filter]; [reflexivity|].
  destruct (Z.eqb_spec (Supply.product_id x) pid) as [E|E]; cbn [negb supplied].
  - rewrite IH. destruct (Z.eqb_spec (Supply.product_id x) k); [congruence|lia].
  - rewrite IH. reflexivity.
Qed.

Lemma supplied_delete k s l :
  NoDup (map Supply.id l) -> In s l ->
  supplied k (delete_row Supply.id (Supply.id s) l)
  = supplied k l - (if Supply.product_id s =? k then Supply.quantity s else 0).
Proof.
  unfold delete_row.
  induction l as [|x l IH]; cbn [supplied filter map In]; [tauto|].
  intros Hnd Hin. inversion Hnd as [|? ? Hnot Hnd']; subst.
  destruct Hin as [->|Hin].
  - rewrite Z.eqb_refl. cbn [negb].
    assert (Hsame : filter (fun y => negb (Supply.id y =? Supply.id s)) l = l).
    { apply forallb_filter_id. apply forallb_forall. intros y Hy.
      apply negb_true_iff, Z.eqb_neq. intros E. apply Hnot. rewrite <- E.
      apply in_map. exact Hy. }
    rewrite Hsame. lia.
  - destruct (Z.eqb_spec (Supply.id x) (Supply.id s)) as [E|E].
    + exfalso. apply Hnot. rewrite E. apply in_map. exact Hin.
    + cbn [negb supplied]. rewrite IH by assumption. lia.
Qed.

(** ** Every handler keeps the store consistent *)

Lemma consistent_empty : consistent empty_db.
Proof.
  constructor; simpl; [constructor | constructor | tauto | tauto].
Qed.

Lemma consistent_with_inventories db l :
  consistent db -> consistent (with_inventories l db).
Proof.
  intros [H0 H1 H2 H3]. constructor; assumption.
Qed.

Lemma consistent_receive db s p :
  consistent db ->
  In p (products db) ->
  Supply.id s = next_id Supply.id (supplies db) ->
  Supply.product_id s = Product.id p ->
  Supply.user_id s = Product.user_id p ->
  consistent (receive s p db).
Proof.
  intros [Hpk Hk Hp Hl] Hin Hid Hpid Hu.
  set (p' := Product.with_current_stock
               (Product.current_stock p + Supply.quantity s) p).
  constructor; cbn [receive supplies products]; fold p'.
  - rewrite update_row_keys. exact Hpk.
  - apply NoDup_add_row; [exact Hk|]. rewrite Hid. apply next_id_fresh.
  - intros x Hx. unfold add_row in Hx. apply in_app_or in Hx.
    assert (Hold : exists q, In q (products db)
                   /\ Product.id q = Supply.product_id x
                   /\ Product.user_id q = Supply.user_id x).
    { destruct Hx as [Hx|[<-|[]]]; [apply Hp; exact Hx|].
      exists p. auto. }
    destruct Hold as (q & Hq & Hqi & Hqu).
    exists (if Product.id q =? Product.id p' then p' else q). split.
    + apply in_update_row_image. exact Hq.
    + destruct (Z.eqb_spec (Product.id q) (Product.id p')) as [E|E]; auto.
      assert (q = p) by (apply (NoDup_key_inj Product.id q p (products db)); auto).
      subst q. auto.
  - intros q Hq. unfold add_row. rewrite supplied_app.
    apply in_update_row in Hq as [->|[Hq Hne]].
    + cbn [p' Product.with_current_stock Product.id Product.current_stock].
      rewrite Hpid, Z.eqb_refl, (Hl p Hin). reflexivity.
    + cbn [p' Product.with_current_stock Product.id] in Hne.
      rewrite Hpid. destruct (Z.eqb_spec (Product.id p) (Product.id q)); [congruence|].
      rewrite (Hl q Hq). lia.
Qed.

(** Under consistency the product of a supply is always found by its owner:
    the branch of the deletion that skips the decrement is not taken. *)
Lemma query_product_of_supply db s :
  consistent db -> In s (supplies db) ->
  exists p, query_product db (Supply.product_id s) (Supply.user_id s) = Some p.
Proof.
  intros [_ _ Hp _] Hs. destruct (Hp s Hs) as (q & Hq & Hqi & Hqu).
  destruct (query_product db (Supply.product_id s) (Supply.user_id s)) eqn:E.
  - eexists. reflexivity.
  - exfalso. apply (query_product_none _ _ _ q E Hq Hqi Hqu).
Qed.

Lemma consistent_retract db s :
  consistent db -> In s (supplies db) ->
  consistent
    (retract s (query_product db (Supply.product_id s) (Supply.user_id s)) db).
Proof.
  intros Hc Hs. destruct (query_product_of_supply db s Hc Hs) as (p & Hq).
  rewrite Hq. apply query_product_some in Hq as (Hin & Hpi & Hpu).
  destruct Hc as [Hpk Hk Hp Hl].
  set (p' := Product.with_current_stock
               (Product.current_stock p - Supply.quantity s) p).
  constructor; cbn [retract supplies products]; fold p'.
  - rewrite update_row_keys. exact Hpk.
  - apply NoDup_map_filter. exact Hk.
  - intros x Hx. apply in_delete_row in Hx as [Hx _].
    destruct (Hp x Hx) as (q & Hq & Hqi & Hqu).
    exists (if Product.id q =? Product.id p' then p' else q). split.
    + apply in_update_row_image. exact Hq.
    + destruct (Z.eqb_spec (Product.id q) (Product.id p')) as [E|E]; auto.
      assert (q = p) by (apply (NoDup_key_inj Product.id q p (products db)); auto).
      subst q. auto.
  - intros q Hq. rewrite supplied_delete by assumption.
    apply in_update_row in Hq as [->|[Hq Hne]].
    + cbn [p' Product.with_current_stock Product.id Product.current_stock].
      rewrite Hpi, Z.eqb_refl, (Hl p Hin), Hpi. reflexivity.
    + cbn [p' Product.with_current_stock Product.id] in Hne.
      rewrite <- Hpi.
      destruct (Z.eqb_spec (Product.id p) (Product.id q)); [congruence|].
      rewrite (Hl q Hq). lia.
Qed.

Lemma consistent_delete_product db pid :
  consistent db -> consistent (delete_product_cascade pid db).
Proof.
  intros [Hpk Hk Hp Hl].
  constructor; cbn [delete_product_cascade supplies products].
  - apply NoDup_map_filter. exact Hpk.
  - apply NoDup_map_filter. exact Hk.
  - intros x Hx. apply filter_In in Hx as [Hx Hne].
    apply negb_true_iff, Z.eqb_neq in Hne.
    destruct (Hp x Hx) as (q & Hq & Hqi & Hqu).
    exists q. split; [|auto]. apply in_delete_row. split; [exact Hq|congruence].
  - intros q Hq. apply in_delete_row in Hq as [Hq Hne].
    rewrite supplied_cascade by exact Hne. apply Hl. exact Hq.
Qed.

Lemma consistent_add_product db p :
  consistent db ->
  Product.id p = next_id Product.id (products db) ->
  Product.current_stock p = 0 ->
  consistent (with_products (add_row p (products db)) db).
Proof.
  intros [Hpk Hk Hp Hl] Hid Hzero.
  constructor; cbn [with_products supplies products].
  - apply NoDup_add_row; [exact Hpk|]. rewrite Hid. apply next_id_fresh.
  - exact Hk.
  - intros x Hx. destruct (Hp x Hx) as (q & Hq & Hqi & Hqu).
    exists q. split; [|auto]. unfold add_row. apply in_or_app. left. exact Hq.
  - intros q Hq. unfold add_row in Hq. apply in_app_or in Hq as [Hq|[<-|[]]].
    + apply Hl. exact Hq.
    + rewrite Hzero. symmetry. apply supplied_none. intros s Hs E.
      destruct (Hp s Hs) as (q & Hq & Hqi & _).
      apply (next_id_above Product.id) in Hq. lia.
Qed.

Lemma consistent_update_product db p payload :
  consistent db -> In p (products db) ->
  consistent
    (with_products
       (update_row Product.id (set_product_fields payload p) (products db)) db).
Proof.
  intros [Hpk Hk Hp Hl] Hin.
  set (p' := set_product_fields payload p).
  constructor; cbn [with_products supplies products].
  - rewrite update_row_keys. exact Hpk.
  - exact Hk.
  - intros x Hx. destruct (Hp x Hx) as (q & Hq & Hqi & Hqu).
    exists (if Product.id q =? Product.id p' then p' else q). split.
    + apply in_update_row_image. exact Hq.
    + destruct (Z.eqb_spec (Product.id q) (Product.id p')) as [E|E]; auto.
      assert (q = p) by (apply (NoDup_key_inj Product.id q p (products db)); auto).
      subst q. auto.
  - intros q Hq. apply in_update_row in Hq as [->|[Hq _]].
    + apply (Hl p Hin).
    + apply Hl. exact Hq.
Qed.

Ltac keep_consistent :=
  first
    [ assumption
    | apply consistent_with_inventories; assumption
    | apply consistent_delete_product; assumption ].

Lemma handle_consistent now db u r :
  consistent db -> consistent (fst (handle now db u r)).
Proof.
  intros Hc.
  destruct r; cbn [handle json page fst snd].
  - (* GET /products/{id} *) exact Hc.
  - (* POST /products/ *)
    unfold create_product_api.
    destruct (sku_taken_by_other _ _ _); cbn [fst]; [exact Hc|].
    apply consistent_add_product; auto.
  - (* PUT /products/{id} *)
    unfold update_product_api.
    destruct (query_product db product_id (User.id u)) as [p|] eqn:Hq;
      cbn [fst]; [|exact Hc].
    destruct (sku_taken_by_other _ _ _); cbn [fst]; [exact Hc|].
    apply consistent_update_product; [exact Hc|].
    apply query_product_some in Hq. tauto.
  - (* DELETE /products/{id} *)
    unfold delete_product_api.
    destruct (query_product db product_id (User.id u)); cbn [fst]; keep_consistent.
  - (* POST /supplies/ *)
    unfold post_supplies.
    destruct (SupplyCreate.parse product_id quantity supplier) as [sc|];
      cbn [fst]; [|exact Hc].
    unfold create_supply_api.
    destruct (query_product db (SupplyCreate.product_id sc) (User.id u))
      as [p|] eqn:Hq; cbn [fst]; [|exact Hc].
    apply query_product_some in Hq as (Hin & Hi & Hu).
    apply consistent_receive; auto.
  - (* DELETE /supplies/{id} *)
    unfold delete_supply_api.
    destruct (query_supply db supply_id (User.id u)) as [s|] eqn:Hq;
      cbn [fst]; [|exact Hc].
    apply query_supply_some in Hq as (Hin & Hi & Hu). rewrite <- Hu.
    apply consistent_retract; assumption.
  - (* POST /inventories/ *) apply consistent_with_inventories; exact Hc.
  - (* PUT /inventories/{id} *)
    unfold update_inventory_api.
    destruct (query_inventory db inventory_id (User.id u)); cbn [fst]; [|exact Hc].
    destruct (setattr_opt _ _); cbn [fst]; keep_consistent.
  - (* DELETE /inventories/{id} *)
    unfold delete_inventory_api.
    destruct (query_inventory db inventory_id (User.id u)); cbn [fst]; keep_consistent.
  - (* POST /products/create *)
    unfold create_product_from_form.
    destruct (query_product_by_sku db sku); cbn [fst]; [exact Hc|].
    apply consistent_add_product; auto.
  - (* POST /products/delete/{id} *)
    unfold delete_product_from_form.
    destruct (query_product db product_id (User.id u)); cbn [fst]; keep_consistent.
  - (* POST /supplies/create *)
    unfold create_supply_from_form.
    destruct (query_product db product_id (User.id u)) as [p|] eqn:Hq;
      cbn [fst]; [|exact Hc].
    apply query_product_some in Hq as (Hin & Hi & Hu).
    apply consistent_receive; auto.
  - (* POST /supplies/delete/{id} *)
    unfold delete_supply_from_form.
    destruct (query_supply db supply_id (User.id u)) as [s|] eqn:Hq;
      cbn [fst]; [|exact Hc].
    apply query_supply_some in Hq as (Hin & Hi & Hu). rewrite <- Hu.
    apply consistent_retract; assumption.
  - (* POST /inventories/create *) apply consistent_with_inventories; exact Hc.
  - (* POST /inventories/update/{id} *)
    unfold update_inventory_from_form.
    destruct (query_inventory db inventory_id (User.id u)); cbn [fst]; keep_consistent.
  - (* POST /inventories/update-status/{id} *)
    unfold update_inventory_status.
    destruct (query_inventory db inventory_id (User.id u)); cbn [fst]; [|exact Hc].
    destruct (negb _); cbn [fst]; keep_consistent.
  - (* POST /inventories/delete/{id} *)
    unfold delete_inventory_from_form.
    destruct (query_inventory db inventory_id (User.id u)); cbn [fst]; keep_consistent.
Qed.

Lemma run_consistent reqs :
  forall db, consistent db -> consistent (run db reqs).
Proof.
  induction reqs as [|r reqs IH]; intros db Hc; cbn [run]; [exact Hc|].
  apply IH, handle_consistent, Hc.
Qed.

(** ** The stock ledger *)

(** C1.  Starting from a consistent store, after any sequence of requests
    served by the endpoints (creations and deletions of supplies, and every
    other request that writes a product, a supply or an inventory, by any
    senders at any instants), the current stock of every product on record
    equals the sum of the quantities of the supplies linked to it. *)
Theorem stock_equals_supplies :
  forall (db : DB) (reqs : list served) (p : Product.t),
    consistent db ->
    In p (products (run db reqs)) ->
    Product.current_stock p
    = supplied (Product.id p) (supplies (run db reqs)).
Proof.
  intros db reqs p Hc Hin.
  apply (stock_ledger _ (run_consistent reqs db Hc)). exact Hin.
Qed.

(** In particular the ledger holds in every store the endpoints can reach
    from the empty one. *)
Lemma ledger_from_empty_store (reqs : list served) (p : Product.t) :
  In p (products (run empty_db reqs)) ->
  Product.current_stock p
  = supplied (Product.id p) (supplies (run empty_db reqs)).
Proof.
  apply (stock_ledger _ (run_consistent reqs empty_db consistent_empty)).
Qed.

Lemma stock_equals_supplies_witness :
  Product.current_stock Scenario.widget_after
  = supplied (Product.id Scenario.widget_after)
             (supplies (run empty_db Scenario.ledger_requests_from_empty)).
Proof.
  apply (stock_equals_supplies empty_db).
  - constructor; simpl; [constructor | constructor | tauto | tauto].
  - vm_compute. left. reflexivity.
Defined.

Lemma get_product_update_row p' k l :
  find (fun y => Product.id y =? k) (update_row Product.id p' l)
  = option_map (fun y => if Product.id y =? Product.id p' then p' else y)
               (find (fun y => Product.id y =? k) l).
Proof.
  unfold update_row. apply (find_key_map Product.id).
  intros y. destruct (Z.eqb_spec (Product.id y) (Product.id p')); congruence.
Qed.

Lemma query_product_absent db i u :
  get_product db i = None -> query_product db i u = None.
Proof.
  unfold get_product. intros Hnone.
  destruct (query_product db i u) as [q|] eqn:Hq; [|reflexivity].
  apply query_product_some in Hq as (Hin & Hi & _).
  apply (find_none _ _ Hnone) in Hin. simpl in Hin.
  rewrite Hi, Z.eqb_refl in Hin. discriminate.
Qed.

(** What [retract] leaves of the stock of the product it was given. *)
Lemma retract_stock db s p :
  In p (products db) ->
  get_product (retract s (Some p) db) (Product.id p)
  = Some (Product.with_current_stock
            (Product.current_stock p - Supply.quantity s) p).
Proof.
  intros Hin. unfold get_product. cbn [retract products].
  rewrite get_product_update_row.
  destruct (find (fun y => Product.id y =? Product.id p) (products db))
    as [y|] eqn:Hy.
  - apply find_some in Hy as [_ Hy]. cbn [option_map Product.with_current_stock
      Product.id]. rewrite Hy. reflexivity.
  - apply (find_none _ _ Hy) in Hin. simpl in Hin.
    rewrite Z.eqb_refl in Hin. discriminate.
Qed.

Lemma retract_others db s p k :
  k <> Product.id p ->
  get_product (retract s (Some p) db) k = get_product db k.
Proof.
  intros Hk. unfold get_product. cbn [retract products].
  rewrite get_product_update_row.
  destruct (find (fun y => Product.id y =? k) (products db)) as [y|] eqn:Hy;
    [|reflexivity].
  apply find_some in Hy as [_ Hy]. apply Z.eqb_eq in Hy.
  cbn [option_map Product.with_current_stock Product.id].
  destruct (Z.eqb_spec (Product.id y) (Product.id p)); [congruence|reflexivity].
Qed.

(** C3.  Deleting an owned supply [s], through the JSON endpoint or through
    the form (both leave the same store): the supply record is gone and no
    other supply is; when the product it refers to is found among the
    caller's products, the stock of that product has gone down by exactly the
    quantity of [s], whatever other supplies refer to it, and every other
    product is as it was; when no product is stored under that id, no stock
    changes and the supply record is deleted all the same. *)
Theorem delete_supply_reverses_once :
  forall (db : DB) (u : User.t) (sid : Z) (s : Supply.t),
    query_supply db sid (User.id u) = Some s ->
    let after := fst (delete_supply_api sid db u) in
    fst (delete_supply_from_form sid db u) = after
    /\ snd (delete_supply_api sid db u) = Return "Supply deleted successfully"
    /\ (forall s', In s' (supplies after)
                   <-> In s' (supplies db) /\ Supply.id s' <> sid)
    /\ (forall p,
          query_product db (Supply.product_id s) (User.id u) = Some p ->
          option_map Product.current_stock
                     (get_product after (Supply.product_id s))
          = Some (Product.current_stock p - Supply.quantity s)
          /\ forall k, k <> Supply.product_id s ->
                       get_product after k = get_product db k)
    /\ (get_product db (Supply.product_id s) = None ->
          products after = products db).
Proof.
  intros db u sid s Hs after. subst after.
  unfold delete_supply_from_form, delete_supply_api. rewrite Hs. cbn [fst snd].
  apply query_supply_some in Hs as (Hin & Hid & Hu).
  split; [reflexivity|]. split; [reflexivity|]. split; [|split].
  - intros s'. cbn [retract supplies]. rewrite in_delete_row, Hid. tauto.
  - intros p Hp. rewrite Hp.
    apply query_product_some in Hp as (Hpin & Hpi & _). rewrite <- Hpi.
    split.
    + rewrite retract_stock by exact Hpin. reflexivity.
    + intros k Hk. apply retract_others. exact Hk.
  - intros Habsent. rewrite (query_product_absent _ _ _ Habsent). reflexivity.
Qed.

Lemma delete_supply_reverses_once_witness :
  option_map Product.current_stock
             (get_product (fst (delete_supply_api 1 Scenario.stocked Scenario.alice)) 1)
  = Some (10 - 10).
Proof.
  destruct (delete_supply_reverses_once Scenario.stocked Scenario.alice 1
              (Supply.mk 1 1 10 "Acme" 110 "received" 1))
    as (_ & _ & _ & H & _).
  - vm_compute. reflexivity.
  - apply (H (Product.mk 1 "Widget" None "X1" 10 0 100 100 1)).
    vm_compute. reflexivity.
Defined.

(** ** The ownership guard *)

Section OwnerFilter.
Context {A : Type} (key owned_by : A -> Z).

Lemma find_owned_absent (k u : Z) (l : list A) :
  find (fun y => key y =? k) l = None ->
  find (fun y => (key y =? k) && (owned_by y =? u)) l = None.
Proof.
  induction l as [|y l IH]; simpl; [reflexivity|].
  destruct (key y =? k); simpl; [discriminate|exact IH].
Qed.

Lemma find_owned_foreign (k u : Z) (x : A) (l : list A) :
  NoDup (map key l) ->
  find (fun y => key y =? k) l = Some x ->
  owned_by x <> u ->
  find (fun y => (key y =? k) && (owned_by y =? u)) l = None.
Proof.
  intros Hnd Hx Hu.
  destruct (find (fun y => (key y =? k) && (owned_by y =? u)) l) as [y|] eqn:Hy;
    [|reflexivity].
  apply find_some in Hy as [Hin Hy]. apply andb_prop in Hy as [Hk Ho].
  apply Z.eqb_eq in Hk, Ho.
  rewrite (find_key_unique key k x y l Hnd Hx Hin Hk) in Ho. contradiction.
Qed.
End OwnerFilter.

Lemma foreign_is_hidden db e i b u :
  keys_unique db -> owner db e i = Some b -> b <> u -> hidden db e i u.
Proof.
  intros [Hp Hs Hi] Ho Hb. destruct e; cbn [owner hidden] in *.
  - unfold get_product in Ho.
    destruct (find _ (products db)) as [x|] eqn:Hx; [|discriminate].
    injection Ho as <-. eapply find_owned_foreign; eauto.
  - unfold get_supply in Ho.
    destruct (find _ (supplies db)) as [x|] eqn:Hx; [|discriminate].
    injection Ho as <-. eapply find_owned_foreign; eauto.
  - unfold get_inventory in Ho.
    destruct (find _ (inventories db)) as [x|] eqn:Hx; [|discriminate].
    injection Ho as <-. eapply find_owned_foreign; eauto.
Qed.

Lemma absent_is_hidden db e j u :
  owner db e j = None -> hidden db e j u.
Proof.
  intros Ho. destruct e; cbn [owner hidden] in *.
  - unfold get_product in Ho.
    destruct (find _ (products db)) eqn:Hx; [discriminate|].
    apply find_owned_absent. exact Hx.
  - unfold get_supply in Ho.
    destruct (find _ (supplies db)) eqn:Hx; [discriminate|].
    apply find_owned_absent. exact Hx.
  - unfold get_inventory in Ho.
    destruct (find _ (inventories db)) eqn:Hx; [discriminate|].
    apply find_owned_absent. exact Hx.
Qed.

(** A by-id request for a record the guard hides is answered as not found,
    with an answer that does not mention the id, and writes nothing. *)
Lemma hidden_is_not_found now db a r e i j :
  target r = Some (e, i) ->
  hidden db e i (User.id a) ->
  hidden db e j (User.id a) ->
  handle now db a r = handle now db a (retarget j r)
  /\ fst (handle now db a r) = db
  /\ is_not_found (snd (handle now db a r)) = true.
Proof.
  intros Ht Hi Hj.
  destruct r; cbn [target] in Ht; try discriminate;
    injection Ht as <- <-; cbn [hidden] in Hi, Hj;
    cbn [handle retarget];
    unfold read_product_api, update_product_api, delete_product_api,
      delete_supply_api, update_inventory_api, delete_inventory_api,
      delete_product_from_form, delete_supply_from_form,
      update_inventory_from_form, update_inventory_status,
      delete_inventory_from_form;
    rewrite Hi, Hj; repeat split; reflexivity.
Qed.

(** C5.  Let the record of some kind stored under id [i] belong to a user
    other than the caller [a], and let no record of that kind be stored under
    id [j].  Then every request of [a] that reads, updates or deletes the
    record under [i] gets exactly the answer the same request gets for [j],
    that answer is a not-found one, and the store is left as it was. *)
Theorem cross_tenant_is_not_found :
  forall (now : Z) (db : DB) (a : User.t) (r : request)
         (e : entity) (i j b : Z),
    keys_unique db ->
    target r = Some (e, i) ->
    owner db e i = Some b ->
    b <> User.id a ->
    owner db e j = None ->
    handle now db a r = handle now db a (retarget j r)
    /\ fst (handle now db a r) = db
    /\ is_not_found (snd (handle now db a r)) = true.
Proof.
  intros now db a r e i j b Hk Ht Ho Hb Hj.
  apply (hidden_is_not_found now db a r e i j Ht).
  - exact (foreign_is_hidden db e i b (User.id a) Hk Ho Hb).
  - exact (absent_is_hidden db e j (User.id a) Hj).
Qed.

Ltac solve_keys :=
  constructor; vm_compute; repeat constructor; simpl; tauto.

Lemma cross_tenant_is_not_found_witness :
  handle 200 Scenario.stocked Scenario.bob (DELETE_product 1)
  = handle 200 Scenario.stocked Scenario.bob (DELETE_product 7)
  /\ fst (handle 200 Scenario.stocked Scenario.bob (DELETE_product 1))
     = Scenario.stocked
  /\ is_not_found (snd (handle 200 Scenario.stocked Scenario.bob (DELETE_product 1)))
     = true.
Proof.
  apply (cross_tenant_is_not_found 200 Scenario.stocked Scenario.bob
           (DELETE_product 1) AProduct 1 7 1).
  - solve_keys.
  - reflexivity.
  - vm_compute. reflexivity.
  - vm_compute. discriminate.
  - vm_compute. reflexivity.
Defined.

(** ** Product updates *)

Lemma untouched_set_product_fields payload p :
  untouched (set_product_fields payload p) = untouched p.
Proof. reflexivity. Qed.

(** C9.  For every payload [PUT /products/{product_id}] accepts and every
    store with unique primary keys: under every id the product stored after
    the update has the id, current stock, creation time and owner it had
    before, so only name, description, sku, min_stock and max_stock can
    differ; the other tables are as they were; and the product returned to
    the caller carries the payload's five fields and the current stock the
    caller's product had before the update. *)
Theorem update_product_keeps_stock :
  forall (product_id : Z) (payload : ProductCreate.t) (db : DB) (u : User.t),
    keys_unique db ->
    let after := fst (update_product_api product_id payload db u) in
    (forall k, option_map untouched (get_product after k)
               = option_map untouched (get_product db k))
    /\ users after = users db
    /\ supplies after = supplies db
    /\ inventories after = inventories db
    /\ (forall p',
          snd (update_product_api product_id payload db u) = Return p' ->
          exists p,
            query_product db product_id (User.id u) = Some p
            /\ Product.current_stock p' = Product.current_stock p
            /\ untouched p' = untouched p
            /\ Product.name p' = ProductCreate.name payload
            /\ Product.description p' = ProductCreate.description payload
            /\ Product.sku p' = ProductCreate.sku payload
            /\ Product.min_stock p' = ProductCreate.min_stock payload
            /\ Product.max_stock p' = ProductCreate.max_stock payload).
Proof.
  intros product_id payload db u [Hpk _ _] after. subst after.
  unfold update_product_api.
  destruct (query_product db product_id (User.id u)) as [p|] eqn:Hq;
    cbn [fst snd].
  2: { repeat split; auto. intros p' H. discriminate. }
  destruct (sku_taken_by_other db _ _); cbn [fst snd].
  { repeat split; auto. intros p' H. discriminate. }
  apply query_product_some in Hq as (Hin & Hid & Hu).
  split; [|split; [reflexivity|split; [reflexivity|split; [reflexivity|]]]].
  - intros k. unfold get_product. cbn [with_products products].
    rewrite get_product_update_row.
    destruct (find (fun y => Product.id y =? k) (products db)) as [y|] eqn:Hy;
      [|reflexivity].
    apply find_some in Hy as [Hy _]. cbn [option_map]. f_equal.
    destruct (Z.eqb_spec (Product.id y) (Product.id (set_product_fields payload p)))
      as [E|E]; [|reflexivity].
    assert (y = p) by (apply (NoDup_key_inj Product.id y p (products db)); auto).
    subst y. apply untouched_set_product_fields.
  - intros p' H. injection H as <-. exists p. repeat split; reflexivity.
Qed.

Lemma update_product_keeps_stock_witness :
  option_map untouched
    (get_product
       (fst (update_product_api 1 (ProductCreate.mk "Gadget" (Some "new") "G7" 2 50)
               Scenario.stocked Scenario.alice)) 1)
  = option_map untouched (get_product Scenario.stocked 1).
Proof.
  apply (update_product_keeps_stock 1 (ProductCreate.mk "Gadget" (Some "new") "G7" 2 50)
           Scenario.stocked Scenario.alice).
  solve_keys.
Defined.

(** ** Authentication *)

Lemma get_user_by_email_reflag f db email :
  get_user_by_email (reflag f db) email
  = option_map (relabel f) (get_user_by_email db email).
Proof.
  unfold get_user_by_email, reflag. cbn [users].
  induction (users db) as [|x l IH]; cbn [map find]; [reflexivity|].
  cbn [relabel User.with_is_active User.email].
  destruct (String.eqb (User.email x) email); [reflexivity|exact IH].
Qed.

(** C10.  Rewrite the active flag of every stored user in any way ([f]
    chooses the new flag, for instance [false] for all).  Credential
    verification, both login endpoints and token resolution on the bearer
    and on the cookie path then succeed and fail exactly as before, for the
    same user, who differs at most in the flag: no step reads [is_active]. *)
Theorem authentication_ignores_is_active :
  forall (pwd_context : CryptContext) (f : User.t -> bool) (db : DB) (now : Z)
         (email password : string)
         (creds : option HTTPAuthorizationCredentials)
         (cookie : option jwt.token),
    authenticate_user pwd_context (reflag f db) email password
    = option_map (relabel f) (authenticate_user pwd_context db email password)
    /\ login_from_form pwd_context now email password (reflag f db)
       = login_from_form pwd_context now email password db
    /\ login_for_access_token pwd_context now email password (reflag f db)
       = login_for_access_token pwd_context now email password db
    /\ get_current_user_for_api now creds (reflag f db)
       = map_outcome (relabel f) (get_current_user_for_api now creds db)
    /\ get_current_user_for_web now cookie (reflag f db)
       = option_map (relabel f) (get_current_user_for_web now cookie db).
Proof.
  intros pwd_context f db now email password creds cookie.
  assert (Hauth :
    authenticate_user pwd_context (reflag f db) email password
    = option_map (relabel f) (authenticate_user pwd_context db email password)).
  { unfold authenticate_user. rewrite get_user_by_email_reflag.
    destruct (get_user_by_email db email) as [x|]; cbn [option_map]; [|reflexivity].
    cbn [relabel User.with_is_active User.hashed_password].
    destruct (negb _); reflexivity. }
  split; [exact Hauth|]. split; [|split; [|split]].
  - unfold login_from_form. rewrite Hauth.
    destruct (authenticate_user pwd_context db email password); reflexivity.
  - unfold login_for_access_token. rewrite Hauth.
    destruct (authenticate_user pwd_context db email password); reflexivity.
  - unfold get_current_user_for_api.
    destruct creds as [c|]; [|reflexivity].
    destruct (token_subject now (credentials c)) as [e|]; [|reflexivity].
    rewrite get_user_by_email_reflag.
    destruct (get_user_by_email db e); reflexivity.
  - unfold get_current_user_for_web.
    destruct cookie as [t|]; [|reflexivity].
    destruct (token_subject now t) as [e|]; [|reflexivity].
    apply get_user_by_email_reflag.
Qed.

Lemma decode_own_token now payload :
  jwt.decode now (jwt.Signed SECRET_KEY ALGORITHM payload) SECRET_KEY [ALGORITHM]
  = match jwt.exp payload with
    | Some e => if e <? now then None else Some payload
    | None => Some payload
    end.
Proof.
  unfold jwt.decode. cbn [existsb]. rewrite !String.eqb_refl. reflexivity.
Qed.

(** The resolver as a function of the credentials it is handed: for
    credentials [None] it raises 401 "Not authenticated" with the challenge
    header [WWW-Authenticate: Bearer];
    with a token that does not decode (malformed, signed with another key, or
    expired) it raises 401 "Invalid token"; with a token that decodes to a
    subject no stored user has as email it raises 401 "User not found". *)
Theorem api_resolver_failures :
  forall (now : Z) (db : DB),
    get_current_user_for_api now None db
    = Raise (mkHTTPException 401 "Not authenticated"
                             [("WWW-Authenticate", "Bearer")])
    /\ (forall c,
          jwt.decode now (credentials c) SECRET_KEY [ALGORITHM] = None ->
          get_current_user_for_api now (Some c) db
          = Raise (mkHTTPException 401 "Invalid token" []))
    /\ (forall sch payload e,
          jwt.exp payload = Some e -> e < now ->
          get_current_user_for_api now
            (Some (mkCredentials sch (jwt.Signed SECRET_KEY ALGORITHM payload))) db
          = Raise (mkHTTPException 401 "Invalid token" []))
    /\ (forall sch key alg payload,
          key <> SECRET_KEY ->
          get_current_user_for_api now
            (Some (mkCredentials sch (jwt.Signed key alg payload))) db
          = Raise (mkHTTPException 401 "Invalid token" []))
    /\ (forall c payload email,
          jwt.decode now (credentials c) SECRET_KEY [ALGORITHM] = Some payload ->
          jwt.sub payload = Some email ->
          get_user_by_email db email = None ->
          get_current_user_for_api now (Some c) db
          = Raise (mkHTTPException 401 "User not found" [])).
Proof.
  intros now db. split; [reflexivity|].
  assert (Hnone : forall c,
    jwt.decode now (credentials c) SECRET_KEY [ALGORITHM] = None ->
    get_current_user_for_api now (Some c) db
    = Raise (mkHTTPException 401 "Invalid token" [])).
  { intros c H. unfold get_current_user_for_api, token_subject. rewrite H.
    reflexivity. }
  split; [exact Hnone|]. split; [|split].
  - intros sch payload e He Hlt. apply Hnone. cbn [credentials].
    rewrite decode_own_token, He.
    destruct (Z.ltb_spec e now); [reflexivity|lia].
  - intros sch key alg payload Hkey. apply Hnone. cbn [credentials jwt.decode].
    destruct (String.eqb_spec key SECRET_KEY); [contradiction|reflexivity].
  - intros c payload email Hd Hs Hu.
    unfold get_current_user_for_api, token_subject. rewrite Hd, Hs, Hu.
    reflexivity.
Qed.

Lemma api_resolver_failures_witness :
  get_current_user_for_api 1000
    (Some (mkCredentials "Bearer"
             (jwt.Signed SECRET_KEY ALGORITHM
                         (jwt.mk (Some "carol@example.com") (Some 2000)))))
    Scenario.audited
  = Raise (mkHTTPException 401 "User not found" []).
Proof.
  apply (proj2 (proj2 (proj2 (proj2
           (api_resolver_failures 1000 Scenario.audited))))
         (mkCredentials "Bearer"
            (jwt.Signed SECRET_KEY ALGORITHM
                        (jwt.mk (Some "carol@example.com") (Some 2000))))
         (jwt.mk (Some "carol@example.com") (Some 2000))
         "carol@example.com").
  - vm_compute. reflexivity.
  - reflexivity.
  - vm_compute. reflexivity.
Defined.

(** A header with the bearer scheme, in any letter case, and a parameter
    reaches the resolver with those credentials. *)
Lemma bearer_header_reaches_resolver now sch token db :
  lower sch = "bearer" ->
  current_user_of_request now (Some (mkAuthorization sch (Some token))) db
  = get_current_user_for_api now (Some (mkCredentials sch token)) db.
Proof.
  intros Hb. unfold current_user_of_request, security_scheme.
  cbn [authorization_param authorization_scheme]. rewrite Hb.
  destruct sch as [|c rest]; [discriminate|].
  cbn [String.eqb negb]. reflexivity.
Qed.

(** C6, at the failing input.  A request to a protected JSON endpoint that
    carries no [Authorization] header is answered by [security_scheme]
    itself, with status 403 "Not authenticated" and no [WWW-Authenticate]
    header.  The branch of [get_current_user_for_api] that answers 401 with
    the challenge header is written for credentials [None], which
    [security_scheme] never hands on, so no request reaches it. *)
Theorem missing_header_is_forbidden_without_challenge :
  forall (now : Z) (db : DB),
    current_user_of_request now None db
    = Raise (mkHTTPException 403 "Not authenticated" [])
    /\ get_current_user_for_api now None db
       = Raise (mkHTTPException 401 "Not authenticated"
                               [("WWW-Authenticate", "Bearer")])
    /\ current_user_of_request now None db
       <> get_current_user_for_api now None db.
Proof.
  intros now db. split; [reflexivity|]. split; [reflexivity|].
  cbn [current_user_of_request security_scheme get_current_user_for_api].
  intros H. injection H as H. discriminate.
Qed.

(** ** Session tokens *)

(** Expiry at [issued_at + t] does not hold for the zero duration: a token
    issued with ttl 0 at instant 0 carries the default expiry 1800, and
    verifying it at instant 1, after [issued_at + 0], still yields the
    subject. *)
Lemma zero_ttl_token_outlives_its_ttl :
  ~ (forall (s : string) (t issued_at now : Z) (tok : jwt.token),
       create_access_token issued_at (jwt.mk (Some s) None) (Some t) = Some tok ->
       issued_at + t < now ->
       token_subject now tok = None).
Proof.
  intros H.
  specialize (H "alice@example.com" 0 0 1 _ eq_refl eq_refl).
  vm_compute in H. discriminate.
Qed.

(** Durations in whole seconds.  For every subject [s] and every duration
    that is not zero (or no duration, which means 30 minutes), the token
    issued at
    [issued_at] is signed with the process key and carries the subject and
    the expiry [issued_at + t]; verifying it at any instant up to
    [issued_at + t] yields [s], and verifying it at any later instant
    fails. *)
Theorem token_valid_until_expiry :
  forall (s : string) (expires_delta : option Z) (issued_at : Z),
    expires_delta <> Some 0 ->
    let expiry := issued_at + lifetime expires_delta in
    let tok := jwt.Signed SECRET_KEY ALGORITHM (jwt.mk (Some s) (Some expiry)) in
    create_access_token issued_at (jwt.mk (Some s) None) expires_delta = Some tok
    /\ lifetime None = 30 * 60
    /\ (forall now, now <= expiry -> token_subject now tok = Some s)
    /\ (forall now, expiry < now -> token_subject now tok = None).
Proof.
  intros s expires_delta issued_at Hnz expiry tok. subst expiry tok.
  split; [|split; [reflexivity|split]].
  - unfold create_access_token, jwt.encode. cbn [jwt.sub].
    destruct expires_delta as [d|]; cbn [lifetime]; [|reflexivity].
    destruct (Z.eqb_spec d 0); [congruence|reflexivity].
  - intros now Hle. unfold token_subject. rewrite decode_own_token.
    cbn [jwt.exp jwt.sub].
    destruct (Z.ltb_spec (issued_at + lifetime expires_delta) now);
      [lia|reflexivity].
  - intros now Hlt. unfold token_subject. rewrite decode_own_token.
    cbn [jwt.exp].
    destruct (Z.ltb_spec (issued_at + lifetime expires_delta) now);
      [reflexivity|lia].
Qed.

Lemma token_valid_until_expiry_witness :
  token_subject 1500
    (jwt.Signed SECRET_KEY ALGORITHM
                (jwt.mk (Some "alice@example.com") (Some (1000 + lifetime (Some 600)))))
  = Some "alice@example.com".
Proof.
  assert (Hnz : Some 600 <> Some 0) by discriminate.
  apply (proj1 (proj2 (proj2
           (token_valid_until_expiry "alice@example.com" (Some 600) 1000 Hnz)))).
  vm_compute. discriminate.
Defined.

(** C7, at the failing input.  Issued with the zero duration, a token does
    not expire at [issued_at + 0]: [if expires_delta:] takes [timedelta(0)]
    for a missing duration, so the token carries the expiry of the default,
    [issued_at] plus 30 minutes, is the very token issued with no duration,
    and still yields its subject one second after it was issued. *)
Theorem zero_ttl_gets_default_expiry :
  forall (s : string) (issued_at : Z),
    let tok :=
      jwt.Signed SECRET_KEY ALGORITHM
                 (jwt.mk (Some s) (Some (issued_at + 30 * 60))) in
    create_access_token issued_at (jwt.mk (Some s) None) (Some 0) = Some tok
    /\ create_access_token issued_at (jwt.mk (Some s) None) (Some 0)
       = create_access_token issued_at (jwt.mk (Some s) None) None
    /\ token_subject (issued_at + 1) tok = Some s.
Proof.
  intros s issued_at tok. subst tok.
  split; [reflexivity|]. split; [reflexivity|].
  unfold token_subject. rewrite decode_own_token. cbn [jwt.exp jwt.sub].
  destruct (Z.ltb_spec (issued_at + 30 * 60) (issued_at + 1)); [lia|reflexivity].
Qed.

(** ** Where the two surfaces differ *)

(** The JSON surface rejects every quantity that is not positive before the
    handler runs, and writes nothing. *)
Lemma post_supplies_rejects_nonpositive now product_id quantity supplier db u :
  quantity <= 0 ->
  post_supplies now product_id quantity supplier db u
  = (db, RequestValidationError "Quantity must be positive").
Proof.
  intros Hq. unfold post_supplies, SupplyCreate.parse, SupplyCreate.validate_quantity.
  destruct (Z.leb_spec quantity 0); [reflexivity|lia].
Qed.

(** On both surfaces a product the caller does not own is not found, and
    nothing is written. *)
Lemma create_supply_needs_owned_product now supply product_id quantity supplier db u :
  query_product db (SupplyCreate.product_id supply) (User.id u) = None ->
  query_product db product_id (User.id u) = None ->
  create_supply_api now supply db u = (db, Raise (not_found "Product not found"))
  /\ create_supply_from_form now product_id quantity supplier db u
     = (db, see_other "/supplies-page?error=Product+not+found").
Proof.
  intros H1 H2. unfold create_supply_api, create_supply_from_form.
  rewrite H1, H2. split; reflexivity.
Qed.

(** The form handler never looks at the sign of the quantity: whenever the
    product is the caller's, the supply is recorded and the stock moves by
    the quantity, whatever it is. *)
Lemma create_supply_from_form_any_quantity now product_id quantity supplier db u p :
  query_product db product_id (User.id u) = Some p ->
  create_supply_from_form now product_id quantity supplier db u
  = (receive (Supply.mk (next_id Supply.id (supplies db)) product_id quantity
                        supplier now "received" (User.id u)) p db,
     see_other "/supplies-page?success=Supply+created").
Proof.
  intros H. unfold create_supply_from_form. rewrite H. reflexivity.
Qed.

(** C2, at the failing input.  Alice submits the supply form for her product
    1 with quantity -5: the request succeeds, a supply of -5 is recorded and
    the stock goes from 10 to 5.  The same body sent to [POST /supplies/] is
    rejected and nothing is written. *)
Theorem form_accepts_negative_quantity :
  let r := create_supply_from_form 120 1 (-5) "Acme" Scenario.stocked Scenario.alice in
  snd r = see_other "/supplies-page?success=Supply+created"
  /\ supplies (fst r)
     = (supplies Scenario.stocked
        ++ [Supply.mk 2 1 (-5) "Acme" 120 "received" 1])%list
  /\ option_map Product.current_stock (get_product (fst r) 1) = Some 5
  /\ option_map Product.current_stock (get_product Scenario.stocked 1) = Some 10
  /\ post_supplies 120 1 (-5) "Acme" Scenario.stocked Scenario.alice
     = (Scenario.stocked, RequestValidationError "Quantity must be positive").
Proof.
  vm_compute. repeat split; reflexivity.
Qed.

(** The status form accepts exactly the three listed values: any other is
    answered with an error redirect and nothing is written. *)
Lemma update_inventory_status_rejects now inventory_id status db u :
  ~ In status valid_statuses ->
  query_inventory db inventory_id (User.id u) <> None ->
  update_inventory_status now inventory_id status db u
  = (db, see_other "/inventories-page?error=Invalid+status").
Proof.
  intros Hbad Hq. unfold update_inventory_status.
  destruct (query_inventory db inventory_id (User.id u)); [|contradiction].
  destruct (existsb (String.eqb status) valid_statuses) eqn:E; [|reflexivity].
  exfalso. apply Hbad. apply existsb_exists in E as (x & Hx & Hs).
  apply String.eqb_eq in Hs. subst x. exact Hx.
Qed.

(** C4, at the failing input.  Bob sends [{"status": "archived"}] to
    [PUT /inventories/1] for his pending audit: the request succeeds and the
    stored status becomes "archived".  The same value sent through the status
    form is rejected and the record keeps its status. *)
Theorem api_stores_unlisted_status :
  let r := update_inventory_api 200 1 Scenario.archive Scenario.audited Scenario.bob in
  option_map Inventory.status (get_inventory Scenario.audited 1)
  = Some (Some "pending")
  /\ option_map Inventory.status (get_inventory (fst r) 1)
     = Some (Some "archived")
  /\ (exists i, snd r = Return i /\ Inventory.status i = Some "archived")
  /\ update_inventory_status 200 1 "archived" Scenario.audited Scenario.bob
     = (Scenario.audited, see_other "/inventories-page?error=Invalid+status").
Proof.
  vm_compute. repeat split; try reflexivity.
  eexists. split; reflexivity.
Qed.

(** The JSON handler writes a product without looking for its sku first: when
    a stored product has the sku, the commit fails and the caller gets a
    server error; nothing is written. *)
Lemma create_product_api_duplicate now payload db u x :
  In x (products db) ->
  Product.sku x = ProductCreate.sku payload ->
  create_product_api now payload db u = (db, InternalServerError).
Proof.
  intros Hin Hsku. unfold create_product_api. cbn [Product.id Product.sku].
  assert (E : sku_taken_by_other db (next_id Product.id (products db))
                                 (ProductCreate.sku payload) = true).
  { unfold sku_taken_by_other. apply existsb_exists. exists x. split; [exact Hin|].
    apply andb_true_intro. split.
    - apply negb_true_iff, Z.eqb_neq.
      pose proof (next_id_above Product.id (products db) x Hin). lia.
    - rewrite Hsku. apply String.eqb_refl. }
  rewrite E. reflexivity.
Qed.

(** C8, at the failing input.  Product X1 is on record; Bob posts a product
    with sku "X1" to [POST /products/]: the answer is the server error of an
    uncaught exception (HTTP 500), not a validation error, and nothing is
    written.  The same sku sent through the form is answered with the error
    redirect, and nothing is written either. *)
Theorem api_duplicate_sku_is_server_error :
  create_product_api 200 Scenario.x1 Scenario.stocked Scenario.bob
  = (Scenario.stocked, InternalServerError)
  /\ create_product_from_form 200 "Widget" "X1" None 0 100
       Scenario.stocked Scenario.bob
     = (Scenario.stocked, see_other "/products-page?error=SKU+already+exists").
Proof.
  vm_compute. split; reflexivity.
Qed.

(** * Further properties of the handlers *)

(** ** More on lists and tables *)

Lemma find_map_invariant {A : Type} (f : A -> bool) (g : A -> A) (l : list A) :
  (forall y, In y l -> f (g y) = f y) ->
  find f (map g l) = option_map g (find f l).
Proof.
  induction l as [|y l IH]; cbn [map find]; intros H; [reflexivity|].
  rewrite (H y (or_introl eq_refl)).
  destruct (f y); [reflexivity|].
  apply IH. intros z Hz. apply H. right. exact Hz.
Qed.

Lemma find_add_row_fresh {A : Type} (f : A -> bool) (x : A) (l : list A) :
  (forall y, In y l -> f y = false) ->
  find f (add_row x l) = if f x then Some x else None.
Proof.
  unfold add_row. induction l as [|y l IH]; cbn [app find]; intros H; [reflexivity|].
  rewrite (H y (or_introl eq_refl)). apply IH.
  intros z Hz. apply H. right. exact Hz.
Qed.


Lemma find_filter_other {A : Type} (f g : A -> bool) (l : list A) :
  (forall y, In y l -> f y = true -> g y = true) ->
  find f (filter g l) = find f l.
Proof.
  induction l as [|y l IH]; cbn [filter find]; intros H; [reflexivity|].
  assert (IH' : find f (filter g l) = find f l)
    by (apply IH; intros z Hz; apply H; right; exact Hz).
  destruct (f y) eqn:Ef.
  - rewrite (H y (or_introl eq_refl) Ef). cbn [find]. rewrite Ef. reflexivity.
  - destruct (g y); cbn [find]; [rewrite Ef|]; exact IH'.
Qed.

Lemma filter_map_same {A : Type} (f : A -> bool) (g : A -> A) (l : list A) :
  (forall y, In y l -> g y = y \/ (f y = false /\ f (g y) = false)) ->
  filter f (map g l) = filter f l.
Proof.
  induction l as [|y l IH]; cbn [map filter]; intros H; [reflexivity|].
  rewrite IH by (intros z Hz; apply H; right; exact Hz).
  destruct (H y (or_introl eq_refl)) as [->|[E1 E2]]; [reflexivity|].
  rewrite E1, E2. reflexivity.
Qed.

Lemma filter_filter_same {A : Type} (f g : A -> bool) (l : list A) :
  (forall y, In y l -> g y = false -> f y = false) ->
  filter f (filter g l) = filter f l.
Proof.
  induction l as [|y l IH]; cbn [filter]; intros H; [reflexivity|].
  assert (IH' : filter f (filter g l) = filter f l)
    by (apply IH; intros z Hz; apply H; right; exact Hz).
  destruct (g y) eqn:Eg; cbn [filter]; [rewrite IH'; reflexivity|].
  rewrite (H y (or_introl eq_refl) Eg). exact IH'.
Qed.

Lemma filter_add_row_other {A : Type} (f : A -> bool) (x : A) (l : list A) :
  f x = false -> filter f (add_row x l) = filter f l.
Proof.
  intros Hx. unfold add_row. rewrite filter_app. cbn [filter]. rewrite Hx.
  apply app_nil_r.
Qed.

Lemma NoDup_map_filter_any {A B : Type} (h : A -> B) (f : A -> bool) (l : list A) :
  NoDup (map h l) -> NoDup (map h (filter f l)).
Proof.
  induction l as [|y l IH]; cbn [map filter]; [auto|].
  intros H. inversion H as [|? ? Hnot Hnd]; subst.
  destruct (f y); cbn [map]; auto.
  constructor; auto.
  rewrite in_map_iff in *. intros (z & Hz & Hin).
  apply Hnot. exists z. rewrite filter_In in Hin. tauto.
Qed.

Lemma NoDup_map_add_any {A B : Type} (h : A -> B) (x : A) (l : list A) :
  NoDup (map h l) -> ~ In (h x) (map h l) -> NoDup (map h (add_row x l)).
Proof.
  intros Hnd Hx. unfold add_row. rewrite map_app. cbn [map].
  apply NoDup_app; [exact Hnd | repeat constructor; simpl; tauto |].
  intros k Hk [<-|[]]. auto.
Qed.

(** With unique keys, rewriting a stored row under its key changes that row
    and no other. *)
Lemma update_row_restore {A : Type} (key : A -> Z) (x x' : A) (l : list A) :
  NoDup (map key l) -> In x l -> key x' = key x ->
  update_row key x (update_row key x' l) = l.
Proof.
  intros Hnd Hin Hk. unfold update_row. rewrite map_map.
  rewrite <- (map_id l) at 2. apply map_ext_in. intros y Hy.
  destruct (Z.eqb_spec (key y) (key x')) as [E|E].
  - rewrite Hk, Z.eqb_refl. symmetry.
    apply (NoDup_key_inj key y x l); auto. congruence.
  - destruct (Z.eqb_spec (key y) (key x)); [congruence|reflexivity].
Qed.

Lemma delete_added_row {A : Type} (key : A -> Z) (x : A) (l : list A) :
  key x = next_id key l ->
  delete_row key (key x) (add_row x l) = l.
Proof.
  intros Hk. unfold delete_row, add_row. rewrite filter_app. cbn [filter].
  rewrite Z.eqb_refl. cbn [negb]. rewrite app_nil_r.
  apply forallb_filter_id, forallb_forall. intros y Hy.
  apply negb_true_iff, Z.eqb_neq.
  pose proof (next_id_above key l y Hy). lia.
Qed.

(** ** Receiving and retracting *)

Lemma get_product_found db i u p :
  query_product db i u = Some p -> exists q, get_product db i = Some q.
Proof.
  intros Hq. apply query_product_some in Hq as (Hin & Hi & _).
  unfold get_product. destruct (find _ (products db)) as [q|] eqn:E.
  - exists q. reflexivity.
  - apply (find_none _ _ E) in Hin. simpl in Hin.
    rewrite Hi, Z.eqb_refl in Hin. discriminate.
Qed.

Lemma receive_stock db s p :
  In p (products db) ->
  get_product (receive s p db) (Product.id p)
  = Some (Product.with_current_stock
            (Product.current_stock p + Supply.quantity s) p).
Proof.
  intros Hin. unfold get_product. cbn [receive products].
  rewrite get_product_update_row.
  destruct (find (fun y => Product.id y =? Product.id p) (products db))
    as [y|] eqn:Hy.
  - apply find_some in Hy as [_ Hy].
    cbn [option_map Product.with_current_stock Product.id]. rewrite Hy.
    reflexivity.
  - apply (find_none _ _ Hy) in Hin. simpl in Hin.
    rewrite Z.eqb_refl in Hin. discriminate.
Qed.

Lemma receive_others db s p k :
  k <> Product.id p ->
  get_product (receive s p db) k = get_product db k.
Proof.
  intros Hk. unfold get_product. cbn [receive products].
  rewrite get_product_update_row.
  destruct (find (fun y => Product.id y =? k) (products db)) as [y|] eqn:Hy;
    [|reflexivity].
  apply find_some in Hy as [_ Hy]. apply Z.eqb_eq in Hy.
  cbn [option_map Product.with_current_stock Product.id].
  destruct (Z.eqb_spec (Product.id y) (Product.id p)); [congruence|reflexivity].
Qed.

(** X1.  Receiving a supply for a product the caller owns, through the JSON
    handler or through the form (both leave the same store): one supply row
    is appended, under a key no stored supply has, with the caller as owner,
    status "received" and the current instant as date; the stock of the
    product goes up by exactly the quantity and every other product row is
    as it was. *)
Theorem create_supply_adds_quantity :
  forall (now : Z) (db : DB) (u : User.t) (product_id quantity : Z)
         (supplier : string) (p : Product.t),
    query_product db product_id (User.id u) = Some p ->
    let after :=
      fst (create_supply_from_form now product_id quantity supplier db u) in
    let s := Supply.mk (next_id Supply.id (supplies db)) product_id quantity
                       supplier now "received" (User.id u) in
    create_supply_api now (SupplyCreate.mk product_id quantity supplier) db u
    = (after, Return s)
    /\ supplies after = add_row s (supplies db)
    /\ ~ In (Supply.id s) (map Supply.id (supplies db))
    /\ option_map Product.current_stock (get_product after product_id)
       = Some (Product.current_stock p + quantity)
    /\ (forall k, k <> product_id -> get_product after k = get_product db k)
    /\ users after = users db
    /\ inventories after = inventories db.
Proof.
  intros now db u product_id quantity supplier p Hq after s. subst after s.
  unfold create_supply_from_form, create_supply_api.
  cbn [SupplyCreate.product_id SupplyCreate.quantity SupplyCreate.supplier].
  rewrite Hq. cbn [fst].
  apply query_product_some in Hq as (Hin & Hid & _). subst product_id.
  split; [reflexivity|]. split; [reflexivity|]. split; [apply next_id_fresh|].
  split; [|split; [|split; reflexivity]].
  - rewrite receive_stock by exact Hin. reflexivity.
  - intros k Hk. apply receive_others. exact Hk.
Qed.

Lemma create_supply_adds_quantity_witness :
  option_map Product.current_stock
    (get_product
       (fst (create_supply_from_form 120 1 5 "Bolt" Scenario.stocked Scenario.alice)) 1)
  = Some (10 + 5).
Proof.
  destruct (create_supply_adds_quantity 120 Scenario.stocked Scenario.alice 1 5
              "Bolt" (Product.mk 1 "Widget" None "X1" 10 0 100 100 1))
    as (_ & _ & _ & H & _).
  - vm_compute. reflexivity.
  - exact H.
Defined.

Lemma restock_undone (p : Product.t) (q : Z) :
  Product.with_current_stock
    (Product.current_stock
       (Product.with_current_stock (Product.current_stock p + q) p) - q)
    (Product.with_current_stock (Product.current_stock p + q) p)
  = p.
Proof.
  destruct p as [i n d k c lo hi t o].
  unfold Product.with_current_stock. cbn. f_equal. lia.
Qed.

(** X2.  With unique product keys, receiving a supply for an owned product
    and then deleting that supply gives back exactly the store there was
    before: same products with the same stock, same supplies. *)
Theorem receive_then_retract_restores :
  forall (now : Z) (db : DB) (u : User.t) (supply : SupplyCreate.t)
         (p : Product.t),
    NoDup (map Product.id (products db)) ->
    query_product db (SupplyCreate.product_id supply) (User.id u) = Some p ->
    delete_supply_api (next_id Supply.id (supplies db))
                      (fst (create_supply_api now supply db u)) u
    = (db, Return "Supply deleted successfully").
Proof.
  intros now db u supply p Hnd Hq.
  unfold create_supply_api. rewrite Hq. cbn [fst].
  set (s := Supply.mk (next_id Supply.id (supplies db))
                      (SupplyCreate.product_id supply)
                      (SupplyCreate.quantity supply)
                      (SupplyCreate.supplier supply) now "received" (User.id u)).
  set (p' := Product.with_current_stock
               (Product.current_stock p + Supply.quantity s) p).
  pose proof (query_product_some _ _ _ _ Hq) as (Hin & Hid & Hu).
  assert (Hs : query_supply (receive s p db) (next_id Supply.id (supplies db))
                            (User.id u) = Some s).
  { unfold query_supply. cbn [receive supplies].
    rewrite find_add_row_fresh.
    - cbn [s Supply.id Supply.user_id]. rewrite !Z.eqb_refl. reflexivity.
    - intros y Hy. apply andb_false_iff. left. apply Z.eqb_neq.
      pose proof (next_id_above Supply.id (supplies db) y Hy). lia. }
  assert (Hp : query_product (receive s p db) (Supply.product_id s) (User.id u)
               = Some p').
  { unfold query_product. cbn [receive products]. fold p'.
    unfold update_row. rewrite find_map_invariant.
    - cbn [s Supply.product_id]. fold (query_product db
        (SupplyCreate.product_id supply) (User.id u)). rewrite Hq.
      cbn [option_map]. rewrite Z.eqb_refl. reflexivity.
    - intros y Hy.
      destruct (Z.eqb_spec (Product.id y) (Product.id p')) as [E|E];
        [|reflexivity].
      assert (y = p) by (apply (NoDup_key_inj Product.id y p (products db)); auto).
      subst y. reflexivity. }
  unfold delete_supply_api. rewrite Hs, Hp. f_equal.
  unfold retract. cbn [receive products supplies users inventories].
  fold p'. cbn [s Supply.quantity Supply.id]. unfold p'.
  cbn [s Supply.quantity]. rewrite restock_undone.
  rewrite update_row_restore by (auto; reflexivity).
  change (next_id Supply.id (supplies db)) with (Supply.id s) at 1.
  rewrite delete_added_row by reflexivity.
  destruct db; reflexivity.
Qed.

Lemma receive_then_retract_restores_witness :
  delete_supply_api 2
    (fst (create_supply_api 120 (SupplyCreate.mk 1 5 "Bolt")
            Scenario.stocked Scenario.alice))
    Scenario.alice
  = (Scenario.stocked, Return "Supply deleted successfully").
Proof.
  apply (receive_then_retract_restores 120 Scenario.stocked Scenario.alice
           (SupplyCreate.mk 1 5 "Bolt")
           (Product.mk 1 "Widget" None "X1" 10 0 100 100 1)).
  - vm_compute. repeat constructor. simpl. tauto.
  - vm_compute. reflexivity.
Defined.

(** ** Deleting a product *)

Lemma get_product_after_delete db i k :
  k <> i ->
  get_product (delete_product_cascade i db) k = get_product db k.
Proof.
  intros Hk. unfold get_product, delete_row. cbn [delete_product_cascade products].
  apply find_filter_other. intros y _ Hy. apply Z.eqb_eq in Hy.
  apply negb_true_iff, Z.eqb_neq. congruence.
Qed.

Lemma get_product_deleted db i :
  get_product (delete_product_cascade i db) i = None.
Proof.
  unfold get_product. cbn [delete_product_cascade products].
  destruct (find _ (delete_row Product.id i (products db))) as [y|] eqn:E;
    [|reflexivity].
  apply find_some in E as [Hin Hy]. apply in_delete_row in Hin as [_ Hne].
  apply Z.eqb_eq in Hy. contradiction.
Qed.

(** X3.  Deleting a product the caller owns, through the JSON handler or
    through the form (both leave the same store): no product is stored under
    that id afterwards, so reading it back answers 404; exactly the supplies
    that referred to it are gone with it; every other product row, and the
    users and inventories, are as they were. *)
Theorem delete_product_takes_its_supplies :
  forall (db : DB) (u : User.t) (product_id : Z) (p : Product.t),
    query_product db product_id (User.id u) = Some p ->
    let after := fst (delete_product_api product_id db u) in
    fst (delete_product_from_form product_id db u) = after
    /\ get_product after product_id = None
    /\ read_product_api product_id after u
       = Raise (not_found "Product not found")
    /\ (forall s, In s (supplies after)
                  <-> In s (supplies db) /\ Supply.product_id s <> product_id)
    /\ (forall k, k <> product_id -> get_product after k = get_product db k)
    /\ users after = users db
    /\ inventories after = inventories db.
Proof.
  intros db u product_id p Hq after. subst after.
  unfold delete_product_from_form, delete_product_api. rewrite Hq. cbn [fst].
  apply query_product_some in Hq as (_ & Hid & _). rewrite Hid.
  split; [reflexivity|]. split; [apply get_product_deleted|].
  split; [|split; [|split; [|split; reflexivity]]].
  - unfold read_product_api.
    rewrite (query_product_absent _ _ _ (get_product_deleted db product_id)).
    reflexivity.
  - intros s. cbn [delete_product_cascade supplies].
    rewrite filter_In, negb_true_iff, Z.eqb_neq. tauto.
  - intros k Hk. apply get_product_after_delete. exact Hk.
Qed.

Lemma delete_product_takes_its_supplies_witness :
  supplies (fst (delete_product_api 1 Scenario.stocked Scenario.alice)) = []
  /\ get_product (fst (delete_product_api 1 Scenario.stocked Scenario.alice)) 1
     = None.
Proof.
  destruct (delete_product_takes_its_supplies Scenario.stocked Scenario.alice 1
              (Product.mk 1 "Widget" None "X1" 10 0 100 100 1))
    as (_ & H & _).
  - vm_compute. reflexivity.
  - split; [vm_compute; reflexivity | exact H].
Defined.

(** ** Primary keys and skus stay unique *)

Lemma keys_with_inventories db l :
  keys_unique db -> NoDup (map Inventory.id l) ->
  keys_unique (with_inventories l db).
Proof.
  intros [Hp Hs _] Hl. constructor; assumption.
Qed.

Lemma keys_with_products db l :
  keys_unique db -> NoDup (map Product.id l) ->
  keys_unique (with_products l db).
Proof.
  intros [_ Hs Hi] Hl. constructor; assumption.
Qed.

Lemma keys_receive db s p :
  keys_unique db -> Supply.id s = next_id Supply.id (supplies db) ->
  keys_unique (receive s p db).
Proof.
  intros [Hp Hs Hi] Hid. constructor; cbn [receive products supplies inventories].
  - rewrite update_row_keys. exact Hp.
  - apply NoDup_add_row; [exact Hs|]. rewrite Hid. apply next_id_fresh.
  - exact Hi.
Qed.

Lemma keys_retract db s p :
  keys_unique db -> keys_unique (retract s p db).
Proof.
  intros [Hp Hs Hi]. constructor; cbn [retract products supplies inventories].
  - destruct p; [rewrite update_row_keys|]; exact Hp.
  - apply NoDup_map_filter. exact Hs.
  - exact Hi.
Qed.

Lemma keys_delete_product db i :
  keys_unique db -> keys_unique (delete_product_cascade i db).
Proof.
  intros [Hp Hs Hi].
  constructor; cbn [delete_product_cascade products supplies inventories].
  - apply NoDup_map_filter. exact Hp.
  - apply NoDup_map_filter. exact Hs.
  - exact Hi.
Qed.

Ltac keep_keys :=
  first
    [ assumption
    | apply keys_delete_product; assumption
    | apply keys_retract; assumption
    | apply keys_receive; [assumption | reflexivity]
    | apply keys_with_products;
      [ assumption
      | first [ rewrite update_row_keys; apply product_pk; assumption
              | apply NoDup_add_row;
                [apply product_pk; assumption | apply next_id_fresh] ] ]
    | apply keys_with_inventories;
      [ assumption
      | first [ rewrite update_row_keys; apply inventory_pk; assumption
              | apply NoDup_map_filter; apply inventory_pk; assumption
              | apply NoDup_add_row;
                [apply inventory_pk; assumption | apply next_id_fresh] ] ] ].

Lemma handle_keys_unique now db u r :
  keys_unique db -> keys_unique (fst (handle now db u r)).
Proof.
  intros Hk.
  destruct r; cbn [handle json page fst snd];
    unfold create_product_api, update_product_api, delete_product_api,
      post_supplies, create_supply_api, delete_supply_api,
      create_inventory_api, update_inventory_api, delete_inventory_api,
      create_product_from_form, delete_product_from_form,
      create_supply_from_form, delete_supply_from_form,
      create_inventory_from_form, update_inventory_from_form,
      update_inventory_status, delete_inventory_from_form;
    repeat
      match goal with
      | |- context [match ?x with _ => _ end] => destruct x; cbn [fst snd]
      | |- context [if ?x then _ else _] => destruct x; cbn [fst snd]
      end;
    keep_keys.
Qed.

(** X4.  Unique primary keys are an invariant of the endpoints: if no two
    rows of a table share an id, the same holds after any sequence of
    requests, whoever sends them. *)
Theorem keys_stay_unique :
  forall (reqs : list served) (db : DB),
    keys_unique db -> keys_unique (run db reqs).
Proof.
  induction reqs as [|r reqs IH]; intros db Hk; cbn [run]; [exact Hk|].
  apply IH, handle_keys_unique, Hk.
Qed.

Lemma keys_stay_unique_witness :
  keys_unique (run empty_db Scenario.ledger_requests_from_empty).
Proof.
  apply (keys_stay_unique Scenario.ledger_requests_from_empty empty_db).
  constructor; simpl; constructor.
Defined.

Lemma NoDup_map_inj {A B : Type} (h : A -> B) (x y : A) (l : list A) :
  NoDup (map h l) -> In x l -> In y l -> h x = h y -> x = y.
Proof.
  induction l as [|z l IH]; simpl; [tauto|].
  intros Hnd Hx Hy E. inversion Hnd as [|? ? Hnot Hnd']; subst.
  destruct Hx as [->|Hx], Hy as [->|Hy]; auto.
  - exfalso. apply Hnot. rewrite E. apply in_map. exact Hy.
  - exfalso. apply Hnot. rewrite <- E. apply in_map. exact Hx.
Qed.

Lemma sku_not_taken db i sku y :
  sku_taken_by_other db i sku = false ->
  In y (products db) -> Product.id y <> i -> Product.sku y <> sku.
Proof.
  unfold sku_taken_by_other. intros H Hy Hne E.
  assert (Ht : existsb (fun p => negb (Product.id p =? i)
                                 && String.eqb (Product.sku p) sku)
                       (products db) = true).
  { apply existsb_exists. exists y. split; [exact Hy|].
    apply andb_true_intro. split.
    - apply negb_true_iff, Z.eqb_neq. exact Hne.
    - apply String.eqb_eq. exact E. }
  congruence.
Qed.

Lemma sku_not_found db sku y :
  query_product_by_sku db sku = None ->
  In y (products db) -> Product.sku y <> sku.
Proof.
  unfold query_product_by_sku. intros H Hy E.
  apply (find_none _ _ H) in Hy. simpl in Hy.
  apply String.eqb_neq in Hy. contradiction.
Qed.

Lemma NoDup_skus_update (p' : Product.t) (l : list Product.t) :
  NoDup (map Product.id l) ->
  NoDup (map Product.sku l) ->
  (forall y, In y l -> Product.id y <> Product.id p' ->
             Product.sku y <> Product.sku p') ->
  NoDup (map Product.sku (update_row Product.id p' l)).
Proof.
  unfold update_row.
  induction l as [|y l IH]; cbn [map]; intros Hid Hsku Hfree; [constructor|].
  inversion Hid as [|? ? Hnid Hid']; inversion Hsku as [|? ? Hnsku Hsku']; subst.
  assert (IH' := IH Hid' Hsku'
                    (fun z Hz => Hfree z (or_intror Hz))).
  constructor; [|exact IH'].
  rewrite map_map, in_map_iff. intros (z & Hz & Hin).
  destruct (Z.eqb_spec (Product.id y) (Product.id p')) as [Ey|Ey];
    destruct (Z.eqb_spec (Product.id z) (Product.id p')) as [Ez|Ez].
  - apply Hnid. rewrite Ey, <- Ez. apply in_map. exact Hin.
  - apply (Hfree z (or_intror Hin) Ez). exact Hz.
  - apply (Hfree y (or_introl eq_refl) Ey). symmetry. exact Hz.
  - apply Hnsku. rewrite <- Hz. apply in_map. exact Hin.
Qed.

Lemma skus_restock db p n :
  keys_unique db -> skus_unique db -> In p (products db) ->
  NoDup (map Product.sku
             (update_row Product.id (Product.with_current_stock n p) (products db))).
Proof.
  intros [Hp _ _] Hs Hin. apply NoDup_skus_update; auto.
  cbn [Product.with_current_stock Product.id Product.sku].
  intros y Hy Hne E. apply Hne. f_equal.
  apply (NoDup_map_inj Product.sku y p (products db)); auto.
Qed.

Lemma skus_add_product db x :
  skus_unique db ->
  (forall y, In y (products db) -> Product.sku y <> Product.sku x) ->
  skus_unique (with_products (add_row x (products db)) db).
Proof.
  intros Hs Hfree. unfold skus_unique. cbn [with_products products].
  apply NoDup_map_add_any; [exact Hs|].
  rewrite in_map_iff. intros (y & E & Hy). apply (Hfree y Hy). exact E.
Qed.

Lemma handle_skus_unique now db u r :
  keys_unique db -> skus_unique db -> skus_unique (fst (handle now db u r)).
Proof.
  intros Hk Hs.
  destruct r; cbn [handle json page fst snd]; try exact Hs.
  - (* POST /products/ *)
    unfold create_product_api.
    destruct (sku_taken_by_other _ _ _) eqn:E; cbn [fst]; [exact Hs|].
    apply skus_add_product; [exact Hs|]. intros y Hy.
    apply (sku_not_taken _ _ _ y E Hy). cbn [Product.id].
    pose proof (next_id_above Product.id (products db) y Hy). lia.
  - (* PUT /products/{id} *)
    unfold update_product_api.
    destruct (query_product db product_id (User.id u)) as [p|]; cbn [fst];
      [|exact Hs].
    destruct (sku_taken_by_other _ _ _) eqn:E; cbn [fst]; [exact Hs|].
    unfold skus_unique. cbn [with_products products].
    apply NoDup_skus_update; [apply (product_pk _ Hk) | exact Hs |].
    intros y Hy Hne. apply (sku_not_taken _ _ _ y E Hy Hne).
  - (* DELETE /products/{id} *)
    unfold delete_product_api.
    destruct (query_product db product_id (User.id u)); cbn [fst]; [|exact Hs].
    apply NoDup_map_filter_any. exact Hs.
  - (* POST /supplies/ *)
    unfold post_supplies.
    destruct (SupplyCreate.parse product_id quantity supplier) as [sc|];
      cbn [fst]; [|exact Hs].
    unfold create_supply_api.
    destruct (query_product db (SupplyCreate.product_id sc) (User.id u))
      as [p|] eqn:Hq; cbn [fst]; [|exact Hs].
    apply query_product_some in Hq as (Hin & _).
    apply skus_restock; assumption.
  - (* DELETE /supplies/{id} *)
    unfold delete_supply_api.
    destruct (query_supply db supply_id (User.id u)) as [s|]; cbn [fst];
      [|exact Hs].
    destruct (query_product db (Supply.product_id s) (User.id u)) as [p|] eqn:Hq;
      [|exact Hs].
    apply query_product_some in Hq as (Hin & _).
    apply skus_restock; assumption.
  - (* PUT /inventories/{id} *)
    unfold update_inventory_api.
    destruct (query_inventory db inventory_id (User.id u)); cbn [fst]; [|exact Hs].
    destruct (setattr_opt _ _); exact Hs.
  - (* DELETE /inventories/{id} *)
    unfold delete_inventory_api.
    destruct (query_inventory db inventory_id (User.id u)); exact Hs.
  - (* POST /products/create *)
    unfold create_product_from_form.
    destruct (query_product_by_sku db sku) eqn:E; cbn [fst]; [exact Hs|].
    apply skus_add_product; [exact Hs|]. intros y Hy.
    apply (sku_not_found _ _ y E Hy).
  - (* POST /products/delete/{id} *)
    unfold delete_product_from_form.
    destruct (query_product db product_id (User.id u)); cbn [fst]; [|exact Hs].
    apply NoDup_map_filter_any. exact Hs.
  - (* POST /supplies/create *)
    unfold create_supply_from_form.
    destruct (query_product db product_id (User.id u)) as [p|] eqn:Hq;
      cbn [fst]; [|exact Hs].
    apply query_product_some in Hq as (Hin & _).
    apply skus_restock; assumption.
  - (* POST /supplies/delete/{id} *)
    unfold delete_supply_from_form.
    destruct (query_supply db supply_id (User.id u)) as [s|]; cbn [fst];
      [|exact Hs].
    destruct (query_product db (Supply.product_id s) (User.id u)) as [p|] eqn:Hq;
      [|exact Hs].
    apply query_product_some in Hq as (Hin & _).
    apply skus_restock; assumption.
  - (* POST /inventories/update/{id} *)
    unfold update_inventory_from_form.
    destruct (query_inventory db inventory_id (User.id u)); exact Hs.
  - (* POST /inventories/update-status/{id} *)
    unfold update_inventory_status.
    destruct (query_inventory db inventory_id (User.id u)); cbn [fst]; [|exact Hs].
    destruct (negb _); exact Hs.
  - (* POST /inventories/delete/{id} *)
    unfold delete_inventory_from_form.
    destruct (query_inventory db inventory_id (User.id u)); exact Hs.
Qed.

(** X5.  No endpoint ever leaves two products with the same sku: starting
    from a store with unique product keys and unique skus, skus are unique
    after any sequence of requests.  The form checks the sku before writing;
    the JSON create and update rely on the unique constraint, whose failure
    rolls the request back. *)
Theorem skus_stay_unique :
  forall (reqs : list served) (db : DB),
    keys_unique db -> skus_unique db -> skus_unique (run db reqs).
Proof.
  induction reqs as [|r reqs IH]; intros db Hk Hs; cbn [run]; [exact Hs|].
  apply IH; [apply handle_keys_unique, Hk | apply handle_skus_unique; assumption].
Qed.

Lemma skus_stay_unique_witness :
  skus_unique (run empty_db Scenario.ledger_requests_from_empty).
Proof.
  apply (skus_stay_unique Scenario.ledger_requests_from_empty empty_db).
  - constructor; simpl; constructor.
  - unfold skus_unique. simpl. constructor.
Defined.

(** ** What a request does to the rows of other users *)

Section OtherOwners.
Context {A : Type} (key owned_by : A -> Z).

Lemma filter_update_row_other (x x0 : A) (v : Z) (l : list A) :
  NoDup (map key l) -> In x0 l -> key x = key x0 ->
  owned_by x0 <> v -> owned_by x <> v ->
  filter (fun y => owned_by y =? v) (update_row key x l)
  = filter (fun y => owned_by y =? v) l.
Proof.
  intros Hnd Hin Hk H0 Hx. unfold update_row. apply filter_map_same.
  intros y Hy. destruct (Z.eqb_spec (key y) (key x)) as [E|E]; [|left; reflexivity].
  right. assert (y = x0) by (apply (NoDup_key_inj key y x0 l); auto; congruence).
  subst y. split; apply Z.eqb_neq; assumption.
Qed.

Lemma filter_delete_row_other (x0 : A) (v : Z) (l : list A) :
  NoDup (map key l) -> In x0 l -> owned_by x0 <> v ->
  filter (fun y => owned_by y =? v) (delete_row key (key x0) l)
  = filter (fun y => owned_by y =? v) l.
Proof.
  intros Hnd Hin H0. unfold delete_row. apply filter_filter_same.
  intros y Hy Hdel. apply negb_false_iff, Z.eqb_eq in Hdel.
  assert (y = x0) by (apply (NoDup_key_inj key y x0 l); auto).
  subst y. apply Z.eqb_neq. exact H0.
Qed.

Lemma filter_add_row_owner (x : A) (v : Z) (l : list A) :
  owned_by x <> v ->
  filter (fun y => owned_by y =? v) (add_row x l)
  = filter (fun y => owned_by y =? v) l.
Proof.
  intros Hx. apply filter_add_row_other. apply Z.eqb_neq. exact Hx.
Qed.

Lemma find_owned_in_own (k v : Z) (l : list A) :
  find (fun y => (key y =? k) && (owned_by y =? v)) l
  = find (fun y => key y =? k) (filter (fun y => owned_by y =? v) l).
Proof.
  induction l as [|y l IH]; cbn [find filter]; [reflexivity|].
  destruct (owned_by y =? v); cbn [find].
  - rewrite andb_true_r. destruct (key y =? k); [reflexivity|exact IH].
  - rewrite andb_false_r. exact IH.
Qed.
End OtherOwners.

Lemma same_rows_refl v db : same_rows_of v db db.
Proof. repeat split. Qed.

Lemma own_with_inventories v db l :
  filter (fun i => Inventory.user_id i =? v) l = own_inventories db v ->
  same_rows_of v db (with_inventories l db).
Proof.
  intros H. repeat split. exact H.
Qed.

Lemma own_receive v db s p :
  keys_unique db -> In p (products db) ->
  Product.user_id p <> v -> Supply.user_id s <> v ->
  same_rows_of v db (receive s p db).
Proof.
  intros Hk Hin Hp Hs. repeat split.
  - unfold own_products. cbn [receive products].
    apply (filter_update_row_other Product.id Product.user_id _ p);
      auto using product_pk.
  - unfold own_supplies. cbn [receive supplies].
    apply filter_add_row_owner. exact Hs.
Qed.

Lemma own_retract v db s p :
  keys_unique db -> In s (supplies db) -> Supply.user_id s <> v ->
  (forall q, p = Some q -> In q (products db) /\ Product.user_id q <> v) ->
  same_rows_of v db (retract s p db).
Proof.
  intros Hk Hin Hs Hp. repeat split.
  - unfold own_products. cbn [retract products].
    destruct p as [q|]; [|reflexivity].
    destruct (Hp q eq_refl) as [Hq Hu].
    apply (filter_update_row_other Product.id Product.user_id _ q);
      auto using product_pk.
  - unfold own_supplies. cbn [retract supplies].
    apply (filter_delete_row_other Supply.id Supply.user_id);
      auto using supply_pk.
Qed.

Lemma own_delete_product v db p :
  consistent db -> keys_unique db -> In p (products db) ->
  Product.user_id p <> v ->
  same_rows_of v db (delete_product_cascade (Product.id p) db).
Proof.
  intros Hc Hk Hin Hp. repeat split.
  - unfold own_products. cbn [delete_product_cascade products].
    apply (filter_delete_row_other Product.id Product.user_id);
      auto using product_pk.
  - unfold own_supplies. cbn [delete_product_cascade supplies].
    apply filter_filter_same. intros s Hs Hdel.
    apply negb_false_iff, Z.eqb_eq in Hdel.
    destruct (supply_product _ Hc s Hs) as (q & Hq & Hqi & Hqu).
    assert (q = p)
      by (apply (NoDup_key_inj Product.id q p (products db));
          auto using product_pk; congruence).
    subst q. apply Z.eqb_neq. congruence.
Qed.

Lemma own_add_product v db x :
  Product.user_id x <> v ->
  same_rows_of v db (with_products (add_row x (products db)) db).
Proof.
  intros Hx. repeat split. unfold own_products. cbn [with_products products].
  apply filter_add_row_owner. exact Hx.
Qed.

Lemma own_update_product v db p payload :
  keys_unique db -> In p (products db) -> Product.user_id p <> v ->
  same_rows_of v db
    (with_products
       (update_row Product.id (set_product_fields payload p) (products db)) db).
Proof.
  intros Hk Hin Hp. repeat split. unfold own_products.
  cbn [with_products products].
  apply (filter_update_row_other Product.id Product.user_id _ p);
    auto using product_pk.
Qed.

Lemma own_update_inventory v db i i' :
  keys_unique db -> In i (inventories db) ->
  Inventory.id i' = Inventory.id i ->
  Inventory.user_id i <> v -> Inventory.user_id i' <> v ->
  same_rows_of v db
    (with_inventories (update_row Inventory.id i' (inventories db)) db).
Proof.
  intros Hk Hin Hid Hi Hi'. apply own_with_inventories.
  apply (filter_update_row_other Inventory.id Inventory.user_id _ i);
    auto using inventory_pk.
Qed.

Lemma own_delete_inventory v db i :
  keys_unique db -> In i (inventories db) -> Inventory.user_id i <> v ->
  same_rows_of v db
    (with_inventories
       (delete_row Inventory.id (Inventory.id i) (inventories db)) db).
Proof.
  intros Hk Hin Hi. apply own_with_inventories.
  apply (filter_delete_row_other Inventory.id Inventory.user_id);
    auto using inventory_pk.
Qed.

Lemma own_add_inventory v db x :
  Inventory.user_id x <> v ->
  same_rows_of v db (with_inventories (add_row x (inventories db)) db).
Proof.
  intros Hx. apply own_with_inventories.
  apply filter_add_row_owner. exact Hx.
Qed.

Lemma handle_same_rows now db u r v :
  consistent db -> keys_unique db -> v <> User.id u ->
  same_rows_of v db (fst (handle now db u r)).
Proof.
  intros Hc Hk Hv.
  assert (Hu : User.id u <> v) by congruence.
  destruct r; cbn [handle json page fst snd]; try apply same_rows_refl.
  - (* POST /products/ *)
    unfold create_product_api.
    destruct (sku_taken_by_other _ _ _); cbn [fst]; [apply same_rows_refl|].
    apply own_add_product. exact Hu.
  - (* PUT /products/{id} *)
    unfold update_product_api.
    destruct (query_product db product_id (User.id u)) as [p|] eqn:Hq;
      cbn [fst]; [|apply same_rows_refl].
    destruct (sku_taken_by_other _ _ _); cbn [fst]; [apply same_rows_refl|].
    apply query_product_some in Hq as (Hin & _ & Ho).
    apply own_update_product; auto. congruence.
  - (* DELETE /products/{id} *)
    unfold delete_product_api.
    destruct (query_product db product_id (User.id u)) as [p|] eqn:Hq;
      cbn [fst]; [|apply same_rows_refl].
    apply query_product_some in Hq as (Hin & _ & Ho).
    apply own_delete_product; auto. congruence.
  - (* POST /supplies/ *)
    unfold post_supplies.
    destruct (SupplyCreate.parse product_id quantity supplier) as [sc|];
      cbn [fst]; [|apply same_rows_refl].
    unfold create_supply_api.
    destruct (query_product db (SupplyCreate.product_id sc) (User.id u))
      as [p|] eqn:Hq; cbn [fst]; [|apply same_rows_refl].
    apply query_product_some in Hq as (Hin & _ & Ho).
    apply own_receive; auto. congruence.
  - (* DELETE /supplies/{id} *)
    unfold delete_supply_api.
    destruct (query_supply db supply_id (User.id u)) as [s|] eqn:Hs;
      cbn [fst]; [|apply same_rows_refl].
    apply query_supply_some in Hs as (Hin & _ & Ho).
    apply own_retract; auto; [congruence|].
    intros q Hq. apply query_product_some in Hq as (Hqin & _ & Hqo).
    split; [exact Hqin|congruence].
  - (* POST /inventories/ *)
    apply own_add_inventory. exact Hu.
  - (* PUT /inventories/{id} *)
    unfold update_inventory_api.
    destruct (query_inventory db inventory_id (User.id u)) as [i|] eqn:Hq;
      cbn [fst]; [|apply same_rows_refl].
    destruct (setattr_opt _ _); cbn [fst]; [|apply same_rows_refl].
    apply query_inventory_some in Hq as (Hin & _ & Ho).
    apply (own_update_inventory v db i); auto; cbn [Inventory.user_id]; congruence.
  - (* DELETE /inventories/{id} *)
    unfold delete_inventory_api.
    destruct (query_inventory db inventory_id (User.id u)) as [i|] eqn:Hq;
      cbn [fst]; [|apply same_rows_refl].
    apply query_inventory_some in Hq as (Hin & _ & Ho).
    apply own_delete_inventory; auto. congruence.
  - (* POST /products/create *)
    unfold create_product_from_form.
    destruct (query_product_by_sku db sku); cbn [fst]; [apply same_rows_refl|].
    apply own_add_product. exact Hu.
  - (* POST /products/delete/{id} *)
    unfold delete_product_from_form.
    destruct (query_product db product_id (User.id u)) as [p|] eqn:Hq;
      cbn [fst]; [|apply same_rows_refl].
    apply query_product_some in Hq as (Hin & _ & Ho).
    apply own_delete_product; auto. congruence.
  - (* POST /supplies/create *)
    unfold create_supply_from_form.
    destruct (query_product db product_id (User.id u)) as [p|] eqn:Hq;
      cbn [fst]; [|apply same_rows_refl].
    apply query_product_some in Hq as (Hin & _ & Ho).
    apply own_receive; auto. congruence.
  - (* POST /supplies/delete/{id} *)
    unfold delete_supply_from_form.
    destruct (query_supply db supply_id (User.id u)) as [s|] eqn:Hs;
      cbn [fst]; [|apply same_rows_refl].
    apply query_supply_some in Hs as (Hin & _ & Ho).
    apply own_retract; auto; [congruence|].
    intros q Hq. apply query_product_some in Hq as (Hqin & _ & Hqo).
    split; [exact Hqin|congruence].
  - (* POST /inventories/create *)
    apply own_add_inventory. exact Hu.
  - (* POST /inventories/update/{id} *)
    unfold update_inventory_from_form.
    destruct (query_inventory db inventory_id (User.id u)) as [i|] eqn:Hq;
      cbn [fst]; [|apply same_rows_refl].
    apply query_inventory_some in Hq as (Hin & _ & Ho).
    apply (own_update_inventory v db i); auto; cbn [Inventory.user_id]; congruence.
  - (* POST /inventories/update-status/{id} *)
    unfold update_inventory_status.
    destruct (query_inventory db inventory_id (User.id u)) as [i|] eqn:Hq;
      cbn [fst]; [|apply same_rows_refl].
    destruct (negb _); cbn [fst]; [apply same_rows_refl|].
    apply query_inventory_some in Hq as (Hin & _ & Ho).
    apply (own_update_inventory v db i); auto; cbn [Inventory.user_id]; congruence.
  - (* POST /inventories/delete/{id} *)
    unfold delete_inventory_from_form.
    destruct (query_inventory db inventory_id (User.id u)) as [i|] eqn:Hq;
      cbn [fst]; [|apply same_rows_refl].
    apply query_inventory_some in Hq as (Hin & _ & Ho).
    apply own_delete_inventory; auto. congruence.
Qed.

Lemma handle_keeps_users now db u r :
  users (fst (handle now db u r)) = users db.
Proof.
  destruct r; cbn [handle json page fst snd];
    unfold create_product_api, update_product_api, delete_product_api,
      post_supplies, create_supply_api, delete_supply_api,
      create_inventory_api, update_inventory_api, delete_inventory_api,
      create_product_from_form, delete_product_from_form,
      create_supply_from_form, delete_supply_from_form,
      create_inventory_from_form, update_inventory_from_form,
      update_inventory_status, delete_inventory_from_form;
    repeat
      match goal with
      | |- context [match ?x with _ => _ end] => destruct x; cbn [fst snd]
      | |- context [if ?x then _ else _] => destruct x; cbn [fst snd]
      end;
    reflexivity.
Qed.

(** X6.  In a consistent store with unique primary keys, a request of one
    user never changes what another user [w] has: after the request [w]'s
    pages, [w]'s listings (for any offset and limit that are not negative),
    what [w] reads by id and the counters of [w]'s index page are exactly
    what they were, and the user table is the same. *)
Theorem requests_leave_other_users_alone :
  forall (now : Z) (db : DB) (u w : User.t) (r : request),
    consistent db -> keys_unique db -> User.id w <> User.id u ->
    let after := fst (handle now db u r) in
    products_page after w = products_page db w
    /\ supplies_page after w = supplies_page db w
    /\ inventories_page after w = inventories_page db w
    /\ (forall skip limit, 0 <= skip -> 0 <= limit ->
          read_products_api skip limit after w = read_products_api skip limit db w
          /\ read_supplies_api skip limit after w
             = read_supplies_api skip limit db w
          /\ read_inventories_api skip limit after w
             = read_inventories_api skip limit db w)
    /\ (forall i, read_product_api i after w = read_product_api i db w)
    /\ (forall now' cookie,
          get_current_user_for_web now' cookie db = Some w ->
          read_root now' cookie after = read_root now' cookie db)
    /\ users after = users db.
Proof.
  intros now db u w r Hc Hk Hw after.
  destruct (handle_same_rows now db u r (User.id w) Hc Hk Hw) as (Hp & Hs & Hi).
  pose proof (handle_keeps_users now db u r) as Hu.
  fold after in Hp, Hs, Hi, Hu.
  unfold products_page, supplies_page, inventories_page,
    read_products_api, read_supplies_api, read_inventories_api.
  rewrite Hp, Hs, Hi.
  repeat split; try reflexivity.
  - intros i. unfold read_product_api, query_product.
    rewrite !(find_owned_in_own Product.id Product.user_id).
    fold (own_products after (User.id w)) (own_products db (User.id w)).
    rewrite Hp. reflexivity.
  - intros now' cookie Hres. unfold read_root.
    assert (Hsame : get_current_user_for_web now' cookie after
                    = get_current_user_for_web now' cookie db).
    { unfold get_current_user_for_web, get_user_by_email. rewrite Hu.
      reflexivity. }
    rewrite Hsame, Hres, Hp, Hs, Hi. reflexivity.
  - exact Hu.
Qed.

Lemma requests_leave_other_users_alone_witness :
  products_page
    (fst (handle 200 Scenario.stocked Scenario.bob
            (POST_products_create "Gear" "G1" None 0 10)))
    Scenario.alice
  = products_page Scenario.stocked Scenario.alice.
Proof.
  apply (requests_leave_other_users_alone 200 Scenario.stocked Scenario.bob
           Scenario.alice (POST_products_create "Gear" "G1" None 0 10)).
  - apply run_consistent. constructor; simpl; [constructor|constructor|tauto|tauto].
  - solve_keys.
  - vm_compute. discriminate.
Defined.

(** ** Listings *)








(** ** Registration and start-up *)

Lemma marking_verifies : verifies_own_hashes Scenario.marking.
Proof.
  intros password. apply String.eqb_refl.
Qed.



Lemma get_user_by_email_some db email u :
  get_user_by_email db email = Some u ->
  In u (users db) /\ User.email u = email.
Proof.
  unfold get_user_by_email. intros H. apply find_some in H as [Hin He].
  apply String.eqb_eq in He. auto.
Qed.

(** [len] counts characters, not bytes: five Cyrillic letters are ten bytes
    and a password of length 5, which the registration refuses. *)
Lemma len_counts_characters :
  len "парол" = 5
  /\ String.length "парол" = 10%nat
  /\ fst (register_from_form Scenario.marking "dan@example.com" "парол" "Dan"
            Scenario.audited)
     = Scenario.audited.
Proof.
  vm_compute. repeat split; reflexivity.
Qed.





Lemma emails_add db x :
  emails_unique db -> get_user_by_email db (User.email x) = None ->
  emails_unique (with_users (add_row x (users db)) db).
Proof.
  intros Hu Hfree. unfold emails_unique. cbn [with_users users].
  apply NoDup_map_add_any; [exact Hu|].
  rewrite in_map_iff. intros (y & E & Hy).
  unfold get_user_by_email in Hfree. apply (find_none _ _ Hfree) in Hy.
  simpl in Hy. apply String.eqb_neq in Hy. contradiction.
Qed.

(** X11.  Emails and user keys stay unique: if no two stored users share an
    email or an id, the same holds after a registration, whatever it was
    given, and after the start-up seeding. *)
Theorem users_stay_unique :
  forall (pwd_context : CryptContext) (db : DB)
         (email password full_name : string),
    emails_unique db ->
    NoDup (map User.id (users db)) ->
    let registered :=
      fst (register_from_form pwd_context email password full_name db) in
    emails_unique registered
    /\ NoDup (map User.id (users registered))
    /\ emails_unique (startup_event pwd_context db)
    /\ NoDup (map User.id (users (startup_event pwd_context db))).
Proof.
  intros pwd_context db email password full_name He Hk registered.
  subst registered. split; [|split; [|split]].
  - unfold register_from_form.
    destruct (len password <? 6); [exact He|].
    destruct (get_user_by_email db email) eqn:E; cbn [fst]; [exact He|].
    apply emails_add; [exact He | exact E].
  - unfold register_from_form.
    destruct (len password <? 6); [exact Hk|].
    destruct (get_user_by_email db email); cbn [fst]; [exact Hk|].
    cbn [with_users users]. apply NoDup_add_row; [exact Hk | apply next_id_fresh].
  - unfold startup_event.
    destruct (Z.eqb_spec (Z.of_nat (List.length (users db))) 0) as [E|E];
      [|exact He].
    apply emails_add; [exact He|].
    assert (Eu : users db = []) by (apply length_zero_iff_nil; lia).
    unfold get_user_by_email. rewrite Eu. reflexivity.
  - unfold startup_event.
    destruct (Z.eqb_spec (Z.of_nat (List.length (users db))) 0) as [E|E];
      [|exact Hk].
    cbn [with_users users].
    apply NoDup_add_row; [exact Hk | apply next_id_fresh].
Qed.

Lemma users_stay_unique_witness :
  emails_unique
    (fst (register_from_form Scenario.marking "carol@example.com" "secret1"
            "Carol" Scenario.audited)).
Proof.
  apply (users_stay_unique Scenario.marking Scenario.audited
           "carol@example.com" "secret1" "Carol").
  - unfold emails_unique. vm_compute. repeat constructor; simpl.
    + intros [H|[]]. discriminate.
    + tauto.
  - vm_compute. repeat constructor; simpl.
    + intros [H|[]]. discriminate.
    + tauto.
Defined.

Lemma startup_event_nonempty pwd_context db :
  users db <> [] -> startup_event pwd_context db = db.
Proof.
  intros Hne. unfold startup_event.
  destruct (Z.eqb_spec (Z.of_nat (List.length (users db))) 0) as [E|E];
    [|reflexivity].
  exfalso. apply Hne. apply length_zero_iff_nil. lia.
Qed.

Lemma startup_event_populates pwd_context db :
  users (startup_event pwd_context db) <> [].
Proof.
  unfold startup_event.
  destruct (Z.eqb_spec (Z.of_nat (List.length (users db))) 0) as [E|E].
  - cbn [with_users users]. unfold add_row. intros H.
    apply app_eq_nil in H as [_ H]. discriminate.
  - intros H. rewrite H in E. apply E. reflexivity.
Qed.

(** X12.  Start-up seeding: a store that has users is left exactly as it is,
    so seeding twice is seeding once; afterwards the user table is never
    empty and the other tables are untouched; and from an empty user table,
    with a hashing scheme that verifies what it hashed, the default account
    can log in with its default password. *)
Theorem startup_seeds_once :
  forall (pwd_context : CryptContext) (db : DB),
    (users db <> [] -> startup_event pwd_context db = db)
    /\ startup_event pwd_context (startup_event pwd_context db)
       = startup_event pwd_context db
    /\ users (startup_event pwd_context db) <> []
    /\ products (startup_event pwd_context db) = products db
    /\ supplies (startup_event pwd_context db) = supplies db
    /\ inventories (startup_event pwd_context db) = inventories db
    /\ (verifies_own_hashes pwd_context -> users db = [] ->
        authenticate_user pwd_context (startup_event pwd_context db)
                          "admin@warehouse.com" "admin123"
        = Some (User.mk 1 "admin@warehouse.com"
                        (get_password_hash pwd_context "admin123")
                        "Administrator" true)).
Proof.
  intros pwd_context db.
  split; [apply startup_event_nonempty|].
  split; [apply startup_event_nonempty, startup_event_populates|].
  split; [apply startup_event_populates|].
  unfold startup_event.
  destruct (Z.eqb_spec (Z.of_nat (List.length (users db))) 0) as [E|E];
    (split; [reflexivity|]); (split; [reflexivity|]); (split; [reflexivity|]).
  - intros Hv Hempty. unfold authenticate_user, get_user_by_email.
    cbn [with_users users]. rewrite Hempty.
    cbn [add_row app find User.email]. rewrite String.eqb_refl.
    unfold verify_password, get_password_hash. cbn [User.hashed_password].
    rewrite Hv. reflexivity.
  - intros _ Hempty. rewrite Hempty in E. exfalso. apply E. reflexivity.
Qed.

Lemma startup_seeds_once_witness :
  authenticate_user Scenario.marking (startup_event Scenario.marking empty_db)
                    "admin@warehouse.com" "admin123"
  = Some (User.mk 1 "admin@warehouse.com" "$mark$admin123" "Administrator" true).
Proof.
  destruct (startup_seeds_once Scenario.marking empty_db)
    as (_ & _ & _ & _ & _ & _ & H).
  apply H.
  - exact marking_verifies.
  - reflexivity.
Defined.

(** ** Logging in and resolving the token *)

Lemma authenticate_user_some pwd_context db email password u :
  authenticate_user pwd_context db email password = Some u ->
  get_user_by_email db email = Some u
  /\ verify_password pwd_context password (User.hashed_password u) = true.
Proof.
  unfold authenticate_user.
  destruct (get_user_by_email db email) as [x|]; [|discriminate].
  destruct (verify_password pwd_context password (User.hashed_password x)) eqn:E;
    cbn [negb]; [|discriminate].
  intros H. injection H as <-. auto.
Qed.

Lemma token_subject_own now s e :
  token_subject now (jwt.Signed SECRET_KEY ALGORITHM (jwt.mk (Some s) (Some e)))
  = if e <? now then None else Some s.
Proof.
  unfold token_subject. rewrite decode_own_token. cbn [jwt.exp].
  destruct (e <? now); reflexivity.
Qed.

(** X13.  Login composes with resolution.  When [POST /token] returns a
    token, [POST /login] sets the same token as cookie, and for thirty
    minutes from the login that token resolves, on the bearer path and on the
    cookie path, to the user whose credentials were checked; from the first
    second after that the bearer path answers 401 "Invalid token" and a
    protected page redirects to the login page. *)
Theorem login_token_resolves_to_user :
  forall (pwd_context : CryptContext) (now : Z) (db : DB)
         (email password : string) (tok : jwt.token),
    login_for_access_token pwd_context now email password db = Return (Some tok) ->
    exists u,
      authenticate_user pwd_context db email password = Some u
      /\ snd (login_from_form pwd_context now email password db) = Some tok
      /\ (forall now' sch,
            now' <= now + 30 * 60 ->
            get_current_user_for_api now' (Some (mkCredentials sch tok)) db
            = Return u
            /\ get_current_user_for_web now' (Some tok) db = Some u)
      /\ (forall now' sch,
            now + 30 * 60 < now' ->
            get_current_user_for_api now' (Some (mkCredentials sch tok)) db
            = Raise (unauthorized "Invalid token")
            /\ require_auth_for_web (get_current_user_for_web now' (Some tok) db)
               = Raise (mkHTTPException 303 "" [("Location", "/login-page")])).
Proof.
  intros pwd_context now db email password tok Hlogin.
  unfold login_for_access_token in Hlogin. unfold login_from_form.
  destruct (authenticate_user pwd_context db email password) as [u|] eqn:Ha;
    [|discriminate].
  exists u. split; [reflexivity|].
  apply authenticate_user_some in Ha as [Hu _].
  pose proof (get_user_by_email_some _ _ _ Hu) as [_ He].
  injection Hlogin as Htok. cbn [snd]. subst tok. split; [reflexivity|].
  unfold jwt.encode.
  change (minutes ACCESS_TOKEN_EXPIRE_MINUTES) with (30 * 60).
  unfold get_current_user_for_api, get_current_user_for_web. cbn [credentials].
  split; intros now' sch Hnow; rewrite token_subject_own.
  - destruct (Z.ltb_spec (now + 30 * 60) now'); [lia|].
    rewrite He, Hu. split; reflexivity.
  - destruct (Z.ltb_spec (now + 30 * 60) now'); [|lia].
    split; reflexivity.
Qed.

Lemma login_token_resolves_to_user_witness :
  exists u,
    authenticate_user Scenario.marking Scenario.seeded
                      "admin@warehouse.com" "admin123" = Some u.
Proof.
  destruct (login_token_resolves_to_user Scenario.marking 1000 Scenario.seeded
              "admin@warehouse.com" "admin123"
              (jwt.Signed SECRET_KEY ALGORITHM
                 (jwt.mk (Some "admin@warehouse.com") (Some 2800))))
    as (u & H & _).
  - vm_compute. reflexivity.
  - exists u. exact H.
Defined.

(** X14.  The two resolvers accept the same tokens: whatever the scheme
    string of the credentials, the bearer path returns a user for a token
    exactly when the cookie path returns that user for it, and the bearer
    path raises exactly when the cookie path finds nobody. *)
Theorem resolvers_agree :
  forall (now : Z) (sch : string) (t : jwt.token) (db : DB),
    (forall u,
       get_current_user_for_api now (Some (mkCredentials sch t)) db = Return u
       <-> get_current_user_for_web now (Some t) db = Some u)
    /\ ((exists e, get_current_user_for_api now (Some (mkCredentials sch t)) db
                   = Raise e /\ status_code e = 401)
        <-> get_current_user_for_web now (Some t) db = None).
Proof.
  intros now sch t db.
  unfold get_current_user_for_api, get_current_user_for_web. cbn [credentials].
  destruct (token_subject now t) as [email|].
  - destruct (get_user_by_email db email) as [x|]; split.
    + intros u. split; intros H; injection H as <-; reflexivity.
    + split; [intros (e & H & _); discriminate | discriminate].
    + intros u. split; discriminate.
    + split; [reflexivity|]. intros _. eexists. split; reflexivity.
  - split.
    + intros u. split; discriminate.
    + split; [reflexivity|]. intros _. eexists. split; reflexivity.
Qed.

(** X15.  Whom the cookie path resolves: the user is a stored user, and the
    cookie is a token signed with the process key under the configured
    algorithm whose subject is that user's email and whose expiry, when it
    carries one, has not passed.  Nothing else resolves. *)
Theorem resolved_user_is_stored_subject :
  forall (now : Z) (cookie : option jwt.token) (db : DB) (u : User.t),
    get_current_user_for_web now cookie db = Some u ->
    In u (users db)
    /\ exists payload,
         cookie = Some (jwt.Signed SECRET_KEY ALGORITHM payload)
         /\ jwt.sub payload = Some (User.email u)
         /\ (forall e, jwt.exp payload = Some e -> now <= e).
Proof.
  intros now cookie db u. unfold get_current_user_for_web, token_subject.
  destruct cookie as [[raw|k a payload]|]; cbn [jwt.decode]; try discriminate.
  destruct (String.eqb_spec k SECRET_KEY) as [->|]; [|discriminate].
  cbn [andb existsb].
  destruct (String.eqb_spec a ALGORITHM) as [->|]; [|discriminate].
  cbn [orb].
  assert (Hexp : forall result,
    match jwt.exp payload with
    | Some e => if e <? now then None else Some payload
    | None => Some payload
    end = Some result ->
    result = payload /\ forall e, jwt.exp payload = Some e -> now <= e).
  { intros result. destruct (jwt.exp payload) as [e|].
    - destruct (Z.ltb_spec e now) as [Hlt|Hge]; [discriminate|].
      intros Hr. injection Hr as <-. split; [reflexivity|].
      intros e' He'. injection He' as <-. exact Hge.
    - intros H. injection H as <-. split; [reflexivity|]. discriminate. }
  destruct (match jwt.exp payload with
            | Some e => if e <? now then None else Some payload
            | None => Some payload
            end) as [result|] eqn:E; [|discriminate].
  destruct (Hexp result eq_refl) as [-> Hnow].
  destruct (jwt.sub payload) as [email|] eqn:Es; [|discriminate].
  intros Hu. apply get_user_by_email_some in Hu as [Hin He].
  split; [exact Hin|]. exists payload. rewrite He. auto.
Qed.

Lemma resolved_user_is_stored_subject_witness :
  In (User.mk 1 "admin@warehouse.com" "$mark$admin123" "Administrator" true)
     (users Scenario.seeded).
Proof.
  apply (resolved_user_is_stored_subject 1500
           (Some (jwt.Signed SECRET_KEY ALGORITHM
                    (jwt.mk (Some "admin@warehouse.com") (Some 2800))))
           Scenario.seeded).
  vm_compute. reflexivity.
Defined.



Lemma resolvers_agree_witness :
  get_current_user_for_api 1500
    (Some (mkCredentials "Bearer"
             (jwt.Signed SECRET_KEY ALGORITHM
                         (jwt.mk (Some "admin@warehouse.com") (Some 2800)))))
    Scenario.seeded
  = Return (User.mk 1 "admin@warehouse.com" "$mark$admin123" "Administrator" true).
Proof.
  apply (resolvers_agree 1500 "Bearer"
           (jwt.Signed SECRET_KEY ALGORITHM
                       (jwt.mk (Some "admin@warehouse.com") (Some 2800)))
           Scenario.seeded).
  vm_compute. reflexivity.
Defined.

(** ** Creating and updating products *)

(** X17.  A product that was created can be read back: when
    [POST /products/] returns a product, it is stored under an id no product
    had, with stock 0 and the caller as owner; the caller reads exactly it
    back by that id, and every other user gets 404 for that id.  The form
    stores the same product whenever no product has the sku. *)
Theorem created_product_reads_back :
  forall (now : Z) (db : DB) (u : User.t) (payload : ProductCreate.t)
         (p : Product.t),
    snd (create_product_api now payload db u) = Return p ->
    let after := fst (create_product_api now payload db u) in
    read_product_api (Product.id p) after u = Return p
    /\ get_product db (Product.id p) = None
    /\ Product.current_stock p = 0
    /\ Product.user_id p = User.id u
    /\ (forall w, User.id w <> User.id u ->
                  read_product_api (Product.id p) after w
                  = Raise (not_found "Product not found"))
    /\ (query_product_by_sku db (ProductCreate.sku payload) = None ->
        fst (create_product_from_form now (ProductCreate.name payload)
               (ProductCreate.sku payload) (ProductCreate.description payload)
               (ProductCreate.min_stock payload) (ProductCreate.max_stock payload)
               db u)
        = after).
Proof.
  intros now db u payload p. unfold create_product_api.
  destruct (sku_taken_by_other _ _ _); cbn [fst snd]; [discriminate|].
  intros H. injection H as <-. cbn [Product.id Product.current_stock
    Product.user_id].
  set (p := Product.mk _ _ _ _ _ _ _ _ _).
  assert (Hfresh : forall y, In y (products db) ->
                             Product.id y <> next_id Product.id (products db)).
  { intros y Hy. pose proof (next_id_above Product.id (products db) y Hy). lia. }
  split; [|split; [|split; [reflexivity|split; [reflexivity|split]]]].
  - unfold read_product_api, query_product. cbn [with_products products].
    rewrite find_add_row_fresh.
    + cbn [p Product.id Product.user_id]. rewrite !Z.eqb_refl. reflexivity.
    + intros y Hy. apply andb_false_iff. left. apply Z.eqb_neq, Hfresh, Hy.
  - unfold get_product.
    destruct (find _ (products db)) as [y|] eqn:E; [|reflexivity].
    apply find_some in E as [Hy E]. apply Z.eqb_eq in E.
    exfalso. apply (Hfresh y Hy E).
  - intros w Hw. unfold read_product_api, query_product.
    cbn [with_products products]. rewrite find_add_row_fresh.
    + cbn [p Product.id Product.user_id].
      destruct (Z.eqb_spec (User.id u) (User.id w)); [congruence|].
      rewrite andb_false_r. reflexivity.
    + intros y Hy. apply andb_false_iff. left. apply Z.eqb_neq, Hfresh, Hy.
  - intros Hsku. unfold create_product_from_form. rewrite Hsku. reflexivity.
Qed.

Lemma created_product_reads_back_witness :
  read_product_api 2
    (fst (create_product_api 300 (ProductCreate.mk "Gear" None "G1" 0 10)
            Scenario.stocked Scenario.bob))
    Scenario.bob
  = Return (Product.mk 2 "Gear" None "G1" 0 0 10 300 2).
Proof.
  apply (created_product_reads_back 300 Scenario.stocked Scenario.bob
           (ProductCreate.mk "Gear" None "G1" 0 10)
           (Product.mk 2 "Gear" None "G1" 0 0 10 300 2)).
  vm_compute. reflexivity.
Defined.

Lemma sku_taken_iff db i sku :
  sku_taken_by_other db i sku = true
  <-> exists q, In q (products db) /\ Product.id q <> i /\ Product.sku q = sku.
Proof.
  unfold sku_taken_by_other. rewrite existsb_exists. split.
  - intros (q & Hq & H). apply andb_prop in H as [Hi Hs].
    apply negb_true_iff, Z.eqb_neq in Hi. apply String.eqb_eq in Hs.
    exists q. auto.
  - intros (q & Hq & Hi & Hs). exists q. split; [exact Hq|].
    apply andb_true_intro. split.
    + apply negb_true_iff, Z.eqb_neq. exact Hi.
    + apply String.eqb_eq. exact Hs.
Qed.

(** X18.  Updating an owned product, with unique product keys: if another
    stored product already has the sku of the payload, the answer is the
    server error of the failed commit and the store is unchanged; if none
    has, the update goes through and the caller then reads the updated
    product back.  With unique skus, a payload that keeps the product's own
    sku never conflicts. *)
Theorem update_product_sku_conflicts :
  forall (product_id : Z) (payload : ProductCreate.t) (db : DB) (u : User.t)
         (p : Product.t),
    NoDup (map Product.id (products db)) ->
    query_product db product_id (User.id u) = Some p ->
    ((exists q, In q (products db) /\ Product.id q <> product_id
                /\ Product.sku q = ProductCreate.sku payload) ->
     update_product_api product_id payload db u = (db, InternalServerError))
    /\ ((forall q, In q (products db) -> Product.id q <> product_id ->
                   Product.sku q <> ProductCreate.sku payload) ->
        snd (update_product_api product_id payload db u)
        = Return (set_product_fields payload p)
        /\ read_product_api product_id
             (fst (update_product_api product_id payload db u)) u
           = Return (set_product_fields payload p))
    /\ (skus_unique db -> ProductCreate.sku payload = Product.sku p ->
        snd (update_product_api product_id payload db u)
        = Return (set_product_fields payload p)).
Proof.
  intros product_id payload db u p Hnd Hq.
  pose proof (query_product_some _ _ _ _ Hq) as (Hin & Hid & Ho).
  unfold update_product_api. rewrite Hq.
  cbn [set_product_fields Product.id Product.sku]. rewrite Hid.
  assert (Hfree :
    (forall q, In q (products db) -> Product.id q <> product_id ->
               Product.sku q <> ProductCreate.sku payload) ->
    sku_taken_by_other db product_id (ProductCreate.sku payload) = false).
  { intros H.
    destruct (sku_taken_by_other db product_id (ProductCreate.sku payload)) eqn:E;
      [|reflexivity].
    apply sku_taken_iff in E as (q & Hqin & Hqi & Hqs).
    exfalso. apply (H q Hqin Hqi Hqs). }
  split; [|split].
  - intros Hex. apply sku_taken_iff in Hex. rewrite Hex. reflexivity.
  - intros H. rewrite (Hfree H). cbn [fst snd]. split; [reflexivity|].
    unfold read_product_api, query_product. cbn [with_products products].
    unfold update_row. rewrite find_map_invariant.
    + fold (query_product db product_id (User.id u)). rewrite Hq.
      cbn [option_map set_product_fields Product.id].
      rewrite Z.eqb_refl. reflexivity.
    + intros y Hy. cbn [set_product_fields Product.id].
      destruct (Z.eqb_spec (Product.id y) (Product.id p)) as [E|E];
        [|reflexivity].
      assert (y = p) by (apply (NoDup_key_inj Product.id y p (products db)); auto).
      subst y. reflexivity.
  - intros Hs Hsame. rewrite Hfree; [reflexivity|].
    intros q Hqin Hqi Hqs. apply Hqi. rewrite <- Hid. f_equal.
    apply (NoDup_map_inj Product.sku q p (products db)); auto. congruence.
Qed.

Lemma update_product_sku_conflicts_witness :
  update_product_api 2 (ProductCreate.mk "Gear" None "X1" 0 10)
    (fst (create_product_api 300 (ProductCreate.mk "Gear" None "G1" 0 10)
            Scenario.stocked Scenario.bob))
    Scenario.bob
  = (fst (create_product_api 300 (ProductCreate.mk "Gear" None "G1" 0 10)
            Scenario.stocked Scenario.bob),
     InternalServerError).
Proof.
  apply (update_product_sku_conflicts 2 (ProductCreate.mk "Gear" None "X1" 0 10)
           (fst (create_product_api 300 (ProductCreate.mk "Gear" None "G1" 0 10)
                   Scenario.stocked Scenario.bob))
           Scenario.bob (Product.mk 2 "Gear" None "G1" 0 0 10 300 2)).
  - vm_compute. repeat constructor; simpl; [intros [H|[]]; discriminate | tauto].
  - vm_compute. reflexivity.
  - exists (Product.mk 1 "Widget" None "X1" 10 0 100 100 1).
    split; [vm_compute; left; reflexivity|]. split; [discriminate|reflexivity].
Defined.

(** ** Updating inventories *)

Lemma find_update_row {A : Type} (key : A -> Z) (x : A) (k : Z) (l : list A) :
  (exists y, In y l /\ key y = key x) ->
  find (fun y => key y =? k) (update_row key x l)
  = if k =? key x then Some x else find (fun y => key y =? k) l.
Proof.
  intros (y0 & Hy0 & Hk0). unfold update_row.
  rewrite (find_key_map key).
  2: { intros y. destruct (Z.eqb_spec (key y) (key x)); congruence. }
  destruct (Z.eqb_spec k (key x)) as [->|Hne].
  - destruct (find (fun y => key y =? key x) l) as [y|] eqn:E.
    + apply find_some in E as [_ E]. cbn [option_map]. rewrite E. reflexivity.
    + apply (find_none _ _ E) in Hy0. simpl in Hy0.
      rewrite Hk0, Z.eqb_refl in Hy0. discriminate.
  - destruct (find (fun y => key y =? k) l) as [y|] eqn:E; [|reflexivity].
    apply find_some in E as [_ E]. apply Z.eqb_eq in E. cbn [option_map].
    destruct (Z.eqb_spec (key y) (key x)); [congruence|reflexivity].
Qed.

(** X19.  The two inventory forms, for an inventory the caller owns.  The
    status form with a listed status rewrites the status of that inventory
    and nothing else but the update stamp, which is set to the current
    instant when the status differs from the stored one and is left as it
    was when it is the stored one; the edit form rewrites its name, comment,
    success flag and update stamp and never its status; in both cases every
    other inventory, and every product, supply and user, is as it was. *)
Theorem inventory_forms_touch_their_fields_only :
  forall (now : Z) (db : DB) (u : User.t) (inventory_id : Z) (i : Inventory.t)
         (status name : string) (comment : option string) (is_successful : bool),
    query_inventory db inventory_id (User.id u) = Some i ->
    let by_status :=
      fst (update_inventory_status now inventory_id status db u) in
    let by_edit :=
      fst (update_inventory_from_form now inventory_id name comment
             is_successful db u) in
    (In status valid_statuses ->
     get_inventory by_status inventory_id
     = Some (Inventory.mk (Inventory.id i) (Inventory.name i)
                          (Inventory.description i) (Some status)
                          (Inventory.is_successful i) (Inventory.comment i)
                          (Inventory.created_at i)
                          (if status_is (Inventory.status i) status
                           then Inventory.updated_at i
                           else Some now)
                          (Inventory.user_id i)))
    /\ get_inventory by_edit inventory_id
       = Some (Inventory.mk (Inventory.id i) name (Inventory.description i)
                            (Inventory.status i) (Some is_successful) comment
                            (Inventory.created_at i) (Some now)
                            (Inventory.user_id i))
    /\ (forall k, k <> inventory_id ->
                  get_inventory by_status k = get_inventory db k
                  /\ get_inventory by_edit k = get_inventory db k)
    /\ products by_status = products db /\ products by_edit = products db
    /\ supplies by_status = supplies db /\ supplies by_edit = supplies db
    /\ users by_status = users db /\ users by_edit = users db.
Proof.
  intros now db u inventory_id i status name comment is_successful Hq
         by_status by_edit.
  subst by_status by_edit.
  unfold update_inventory_status, update_inventory_from_form. rewrite Hq.
  apply query_inventory_some in Hq as (Hin & Hid & _).
  assert (Hex : forall i', Inventory.id i' = Inventory.id i ->
            exists y, In y (inventories db) /\ Inventory.id y = Inventory.id i')
    by (intros i' E; exists i; auto).
  split; [|split; [|split]].
  - intros Hok.
    assert (E : existsb (String.eqb status) valid_statuses = true).
    { apply existsb_exists. exists status. split; [exact Hok|].
      apply String.eqb_refl. }
    rewrite E. cbn [negb fst]. unfold get_inventory.
    cbn [with_inventories inventories].
    rewrite find_update_row by (apply Hex; reflexivity).
    cbn [Inventory.id]. rewrite Hid, Z.eqb_refl. reflexivity.
  - cbn [fst]. unfold get_inventory. cbn [with_inventories inventories].
    rewrite find_update_row by (apply Hex; reflexivity).
    cbn [Inventory.id]. rewrite Hid, Z.eqb_refl. reflexivity.
  - intros k Hk. split.
    + destruct (negb _); cbn [fst]; [reflexivity|].
      unfold get_inventory. cbn [with_inventories inventories].
      rewrite find_update_row by (apply Hex; reflexivity).
      cbn [Inventory.id]. rewrite Hid.
      destruct (Z.eqb_spec k inventory_id); [contradiction|reflexivity].
    + cbn [fst]. unfold get_inventory. cbn [with_inventories inventories].
      rewrite find_update_row by (apply Hex; reflexivity).
      cbn [Inventory.id]. rewrite Hid.
      destruct (Z.eqb_spec k inventory_id); [contradiction|reflexivity].
  - destruct (negb _); repeat split.
Qed.

Lemma inventory_forms_touch_their_fields_only_witness :
  get_inventory
    (fst (update_inventory_from_form 200 1 "Autumn count" (Some "ok") true
            Scenario.audited Scenario.bob)) 1
  = Some (Inventory.mk 1 "Autumn count" None (Some "pending") (Some true)
                       (Some "ok") 90 (Some 200) 2).
Proof.
  destruct (inventory_forms_touch_their_fields_only 200 Scenario.audited
              Scenario.bob 1 Scenario.audit "completed" "Autumn count"
              (Some "ok") true)
    as (_ & H & _).
  - vm_compute. reflexivity.
  - exact H.
Defined.

(** X20.  [PUT /inventories/{id}] on an inventory the caller owns: a body
    that sets no field changes nothing but the update stamp; a body that
    sets the name to null fails the commit, so the answer is the server
    error and the store is unchanged, whatever else the body sets. *)
Theorem inventory_update_edge_bodies :
  forall (now : Z) (db : DB) (u : User.t) (inventory_id : Z) (i : Inventory.t),
    query_inventory db inventory_id (User.id u) = Some i ->
    let stamped :=
      Inventory.mk (Inventory.id i) (Inventory.name i) (Inventory.description i)
                   (Inventory.status i) (Inventory.is_successful i)
                   (Inventory.comment i) (Inventory.created_at i) (Some now)
                   (Inventory.user_id i) in
    snd (update_inventory_api now inventory_id
           (InventoryUpdate.mk None None None None None) db u)
    = Return stamped
    /\ get_inventory
         (fst (update_inventory_api now inventory_id
                 (InventoryUpdate.mk None None None None None) db u))
         inventory_id
       = Some stamped
    /\ (forall description status is_successful comment,
          update_inventory_api now inventory_id
            (InventoryUpdate.mk (Some None) description status is_successful
                                comment) db u
          = (db, InternalServerError)).
Proof.
  intros now db u inventory_id i Hq stamped. subst stamped.
  unfold update_inventory_api. rewrite Hq.
  cbn [InventoryUpdate.name InventoryUpdate.description InventoryUpdate.status
       InventoryUpdate.is_successful InventoryUpdate.comment setattr_opt fst snd].
  apply query_inventory_some in Hq as (Hin & Hid & _).
  split; [reflexivity|]. split; [|reflexivity].
  unfold get_inventory. cbn [with_inventories inventories].
  rewrite find_update_row by (exists i; auto).
  cbn [Inventory.id]. rewrite Hid, Z.eqb_refl. reflexivity.
Qed.

Lemma inventory_update_edge_bodies_witness :
  update_inventory_api 200 1
    (InventoryUpdate.mk (Some None) None (Some (Some "completed")) None None)
    Scenario.audited Scenario.bob
  = (Scenario.audited, InternalServerError).
Proof.
  apply (inventory_update_edge_bodies 200 Scenario.audited Scenario.bob 1
           Scenario.audit).
  vm_compute. reflexivity.
Defined.
